(** * BridgeAid: the matching core and the resource normalizer

    A shallow embedding of [backend/matching.js] and
    [backend/resourceService.js], and the properties of the matching
    pipeline, the normalizer and the catalog cache stated over it.

    Conventions of the embedding.
    - A JavaScript string is a [string]: a sequence of code units, each
      below 256 (the Latin-1 range of UTF-16).
    - A JavaScript number that holds an integer is a [Z]; a number that
      may hold a fraction (a JSON number, a [Math.random()] draw) is the
      rational [Q] it equals. The product of two numbers is the exact
      product rounded to the nearest binary64 value, ties to even
      ([roundDouble]); the sums and differences of this program are of
      integers far below 2^53, which binary64 adds exactly, and are taken
      in [Z].
    - The calls of the cache are modelled one after another; a call that
      starts while another one awaits its source is outside the model.
    - [Math.random()] reads the next element of a stream of draws that is
      threaded through the functions that call it.
    - A thrown exception is the [Throw] case of [Completion]. *)

From Stdlib Require Import ZArith QArith Qround Qpower String Ascii List.
From Stdlib Require Import Lia Lqa.
From Stdlib Require Import Permutation Sorted.
From stdpp Require Import base list gmap strings pretty.

Set Warnings "-register-all".
#[local] Open Scope Z_scope.

(* ===================================================================== *)
(** * JavaScript strings                                                  *)
(* ===================================================================== *)

(** [String.prototype.toLowerCase] on one code unit below 256: the letters
    A-Z and the Latin-1 capitals U+00C0-U+00DE (U+00D7, the multiplication
    sign, apart) move up by 32; every other unit is its own lower case. *)
Definition lowerUnit (c : ascii) : ascii :=
  let n := nat_of_ascii c in
  if ((65 <=? n)%nat && (n <=? 90)%nat)
     || ((192 <=? n)%nat && (n <=? 222)%nat && negb (n =? 215)%nat)
  then ascii_of_nat (n + 32)
  else c.

Fixpoint toLowerCase (s : string) : string :=
  match s with
  | EmptyString => EmptyString
  | String c s' => String (lowerUnit c) (toLowerCase s')
  end.

(** [s.substring(0, n)]: the first [n] code units, or all of [s] when it is
    shorter. *)
Definition substring0 (n : nat) (s : string) : string :=
  String.substring 0 n s.

(* ===================================================================== *)
(** * The random source                                                   *)
(* ===================================================================== *)

(** The stream of values [Math.random()] will return, in order. *)
Definition Rng : Type := nat -> Q.

Definition Math_random (g : Rng) : Q * Rng :=
  (g 0%nat, fun n => g (S n)).

Definition Math_floor (q : Q) : Z := Qfloor q.

(** The contract of [Math.random()]: every draw is in [0, 1). *)
Definition unitDraws (g : Rng) : Prop :=
  forall n : nat, (0 <= g n)%Q /\ (g n < 1)%Q.

(* ===================================================================== *)
(** * JavaScript numbers: binary64 products                              *)
(* ===================================================================== *)

(** The integer part of the binary logarithm of a positive rational: the
    [l] with 2^l <= x < 2^(l+1). *)
Definition log2Floor (x : Q) : Z :=
  let c := Z.log2 (Qnum x) - Z.log2 (Z.pos (Qden x)) in
  if Qle_bool (2 ^ c) x then c else c - 1.

(** The nearest integer, a tie going to the even one. *)
Definition roundHalfEven (y : Q) : Z :=
  let f := Qfloor y in
  match (y - inject_Z f ?= 1 # 2)%Q with
  | Lt => f
  | Gt => f + 1
  | Eq => if Z.even f then f else f + 1
  end.

(** The binary64 value nearest to a positive rational below 2^1024: a
    significand of 53 bits, or of fewer at the least exponent -1074. *)
Definition roundPos (x : Q) : Q :=
  let e := Z.max (-1074) (log2Floor x - 52) in
  (inject_Z (roundHalfEven (x / 2 ^ e)) * 2 ^ e)%Q.

(** Rounding to nearest, ties to even, of a rational of magnitude below
    2^1024 (no product of this program comes near it). *)
Definition roundDouble (x : Q) : Q :=
  match (x ?= 0)%Q with
  | Eq => 0%Q
  | Gt => roundPos x
  | Lt => (- roundPos (- x))%Q
  end.

(** [a * b] on numbers. *)
Definition Number_mul (a b : Q) : Q := roundDouble (a * b).

(** A rational that is a binary64 value: rounding leaves it as it is. *)
Definition isBinary64 (q : Q) : bool := Qeq_bool (roundDouble q) q.

(** What [Math.random()] returns is a number: every draw is a binary64
    value. *)
Definition doubleDraws (g : Rng) : Prop :=
  forall n : nat, isBinary64 (g n) = true.

(* ===================================================================== *)
(** * matching.js                                                         *)
(* ===================================================================== *)

(** The [Resource] interface of the front end; the two tag lists may be
    absent on a record, which both guards of matching.js test for. *)
Module Resource.
Record t : Type := mk {
  id : Q;
  name : string;
  category : string;
  address : string;
  zip : string;
  hours : string;
  phone : string;
  website : string;
  eligibilityNotes : string;
  eligibilityTags : option (list string);
  languagesSupported : option (list string)
}.
End Resource.

(** The [UserInfo] interface; [preferredLanguage] is [None] when the
    property is undefined on the request. *)
Module UserInfo.
Record t : Type := mk {
  zip : string;
  ageRange : string;
  incomeBracket : string;
  householdSize : Z;
  primaryNeed : string;
  preferredLanguage : option string
}.
End UserInfo.

(** [{...resource, distance}] *)
Record MatchResult : Type := mkMatch {
  resource : Resource.t;
  distance : Z
}.

Definition calculateDistance (zip1 zip2 : string) (g : Rng) : Z * Rng :=
  if String.eqb zip1 zip2 then (0, g)
  else
    let zip1Prefix := substring0 3 zip1 in
    let zip2Prefix := substring0 3 zip2 in
    if String.eqb zip1Prefix zip2Prefix then
      let (r, g') := Math_random g in
      (Math_floor (Number_mul r 5) + 1, g')
    else
      let (r, g') := Math_random g in
      (Math_floor (Number_mul r 10) + 5, g').

(** [userTags.includes(tag)] *)
Definition includes (l : list string) (x : string) : bool :=
  existsb (String.eqb x) l.

(** The user tags that [matchesEligibility] pushes, in push order. *)
Definition deriveUserTags (userInfo : UserInfo.t) : list string :=
  let userTags := [] in
  let userTags :=
    if String.eqb (UserInfo.incomeBracket userInfo) "low"
       || String.eqb (UserInfo.incomeBracket userInfo) "very_low"
    then userTags ++ ["low_income"%string] else userTags in
  let userTags :=
    if String.eqb (UserInfo.ageRange userInfo) "65+"
    then userTags ++ ["senior"%string] else userTags in
  let userTags :=
    if 1 <? UserInfo.householdSize userInfo
    then userTags ++ ["parent"%string] else userTags in
  userTags.

Definition matchesEligibility (res : Resource.t) (userInfo : UserInfo.t)
  : bool :=
  match Resource.eligibilityTags res with
  | None => true
  | Some tags =>
    if (length tags =? 0)%nat then true
    else
      let userTags := deriveUserTags userInfo in
      if (0 <? length tags)%nat && (0 <? length userTags)%nat
      then existsb (fun tag => includes userTags tag) tags
      else true
  end.

Definition supportsLanguage (res : Resource.t) (preferredLanguage : string)
  : bool :=
  match Resource.languagesSupported res with
  | None => true
  | Some langs =>
    if (length langs =? 0)%nat then true
    else existsb (fun lang => String.eqb (toLowerCase lang)
                                         (toLowerCase preferredLanguage))
                 langs
  end.

(** [Array.prototype.map] with a callback that draws from the random
    source: the elements are visited in index order. *)
Fixpoint mapRng {A B : Type} (f : A -> Rng -> B * Rng) (l : list A) (g : Rng)
  : list B * Rng :=
  match l with
  | [] => ([], g)
  | x :: l' =>
    let (y, g1) := f x g in
    let (ys, g2) := mapRng f l' g1 in
    (y :: ys, g2)
  end.

(** [Array.prototype.sort(compareFn)]: a stable sort, here by insertion.
    [insertSorted] puts [x], which stood before every element of [l] in the
    input, in front of the first element it does not compare above. With a
    consistent comparator every stable sort gives the same array; with
    another one the host only promises a permutation. *)
Fixpoint insertSorted {A : Type} (compareFn : A -> A -> Z) (x : A)
  (l : list A) : list A :=
  match l with
  | [] => [x]
  | y :: l' =>
    if 0 <? compareFn x y then y :: insertSorted compareFn x l'
    else x :: y :: l'
  end.

Definition Array_sort {A : Type} (compareFn : A -> A -> Z) (l : list A)
  : list A :=
  foldr (insertSorted compareFn) [] l.

(** [arr.slice(0, n)] *)
Definition slice0 {A : Type} (n : nat) (l : list A) : list A := firstn n l.

Section Matching.

(** [String.prototype.localeCompare] of the host: negative, zero or
    positive. *)
Variable localeCompare : string -> string -> Z.

(** The comparator passed to [sort]. *)
Definition compareMatches (a b : MatchResult) : Z :=
  if negb (distance a =? distance b) then distance a - distance b
  else localeCompare (Resource.name (resource a))
                     (Resource.name (resource b)).

(** The callback of the [map] that attaches the distance. *)
Definition withDistance (zip : string) (res : Resource.t) (g : Rng)
  : MatchResult * Rng :=
  let (d, g') := calculateDistance zip (Resource.zip res) g in
  ({| resource := res; distance := d |}, g').

Definition matchResources (resources : list Resource.t)
  (userInfo : UserInfo.t) (g : Rng) : list MatchResult * Rng :=
  let zip := UserInfo.zip userInfo in
  let primaryNeed := UserInfo.primaryNeed userInfo in
  let preferredLanguage :=
    match UserInfo.preferredLanguage userInfo with
    | Some l => l
    | None => "English"%string
    end in
  (* Step 1: filter by category *)
  let matches :=
    List.filter (fun res => String.eqb (Resource.category res) primaryNeed)
                resources in
  (* Step 2: filter by eligibility *)
  let matches :=
    List.filter (fun res => matchesEligibility res userInfo) matches in
  (* Step 3: filter by language support *)
  let languageMatches :=
    List.filter (fun res => supportsLanguage res preferredLanguage)
                matches in
  let prioritizedMatches :=
    if (0 <? length languageMatches)%nat then languageMatches
    else matches in
  (* Step 4: calculate distance and sort *)
  let (matchesWithDistance, g') :=
    mapRng (withDistance zip) prioritizedMatches g in
  let sorted := Array_sort compareMatches matchesWithDistance in
  (slice0 5 sorted, g').

End Matching.

(* ===================================================================== *)
(** * JavaScript values                                                   *)
(* ===================================================================== *)

(** The values a parsed JSON document holds, and [JBuiltin] for the
    objects of the host that a property lookup can reach through
    [Object.prototype]. *)
Inductive JSValue : Type :=
  | JUndefined
  | JNull
  | JBool (b : bool)
  | JNum (q : Q)
  | JStr (s : string)
  | JArr (l : list JSValue)
  | JObj (m : gmap string JSValue)
  | JBuiltin (what : string).

(** A raw record: a mapping of string keys to arbitrary values. *)
Abbreviation RawRecord := (gmap string JSValue).

(** The outcome of a call that may throw. *)
Inductive Completion (A : Type) : Type :=
  | Normal (a : A)
  | Throw (e : string).
Arguments Normal {A} a.
Arguments Throw {A} e.

(** ToBoolean *)
Definition truthy (v : JSValue) : bool :=
  match v with
  | JUndefined | JNull => false
  | JBool b => b
  | JNum q => negb (Qeq_bool q 0)
  | JStr s => negb (String.eqb s "")
  | JArr _ | JObj _ | JBuiltin _ => true
  end.

(** [a || b] with an operand [b] that has no effect. *)
Definition jsOr (a b : JSValue) : JSValue := if truthy a then a else b.
Infix "||." := jsOr (at level 50, left associativity).

(** The properties every plain object inherits from [Object.prototype]. *)
Definition objectPrototype : list (string * JSValue) :=
  [ ("constructor", JBuiltin "Object");
    ("__proto__", JBuiltin "Object.prototype");
    ("hasOwnProperty", JBuiltin "Object.prototype.hasOwnProperty");
    ("isPrototypeOf", JBuiltin "Object.prototype.isPrototypeOf");
    ("propertyIsEnumerable", JBuiltin "Object.prototype.propertyIsEnumerable");
    ("toLocaleString", JBuiltin "Object.prototype.toLocaleString");
    ("toString", JBuiltin "Object.prototype.toString");
    ("valueOf", JBuiltin "Object.prototype.valueOf");
    ("__defineGetter__", JBuiltin "Object.prototype.__defineGetter__");
    ("__defineSetter__", JBuiltin "Object.prototype.__defineSetter__");
    ("__lookupGetter__", JBuiltin "Object.prototype.__lookupGetter__");
    ("__lookupSetter__", JBuiltin "Object.prototype.__lookupSetter__") ]%string.

Fixpoint assoc (k : string) (l : list (string * JSValue)) : option JSValue :=
  match l with
  | [] => None
  | (k', v) :: l' => if String.eqb k k' then Some v else assoc k l'
  end.

(** [o[k]] on a plain object: the own property, else the inherited one,
    else [undefined]. *)
Definition get (o : RawRecord) (k : string) : JSValue :=
  match o !! k with
  | Some v => v
  | None =>
    match assoc k objectPrototype with
    | Some v => v
    | None => JUndefined
    end
  end.

(** [v?.k]. It is only used for the keys [address] and [postal_code], which
    no string, number, boolean or array has. *)
Definition optGet (v : JSValue) (k : string) : JSValue :=
  match v with
  | JObj o => get o k
  | _ => JUndefined
  end.

(* ===================================================================== *)
(** * resourceService.js: normalization                                   *)
(* ===================================================================== *)

Definition categoryMap : RawRecord :=
  list_to_map
    [ ("food", JStr "food");
      ("food assistance", JStr "food");
      ("food bank", JStr "food");
      ("meal", JStr "food");
      ("nutrition", JStr "food");
      ("housing", JStr "housing");
      ("shelter", JStr "housing");
      ("rental assistance", JStr "housing");
      ("mental health", JStr "mental_health");
      ("mental healthcare", JStr "mental_health");
      ("counseling", JStr "mental_health");
      ("therapy", JStr "mental_health");
      ("legal", JStr "legal");
      ("legal aid", JStr "legal");
      ("legal services", JStr "legal");
      ("jobs", JStr "jobs");
      ("employment", JStr "jobs");
      ("job training", JStr "jobs");
      ("workforce", JStr "jobs");
      ("career", JStr "jobs") ]%string.

Definition mapCategory (category : JSValue) : Completion JSValue :=
  if negb (truthy category) then Normal (JStr "other")
  else
    match category with
    | JStr s =>
      let categoryLower := toLowerCase s in
      Normal (get categoryMap categoryLower ||. JStr categoryLower)
    | _ => Throw "TypeError: category.toLowerCase is not a function"
    end.

Definition isDigit (c : ascii) : bool :=
  let n := nat_of_ascii c in (48 <=? n)%nat && (n <=? 57)%nat.

(** The class [\w] *)
Definition isWord (c : ascii) : bool :=
  let n := nat_of_ascii c in
  isDigit c
  || ((65 <=? n)%nat && (n <=? 90)%nat)
  || ((97 <=? n)%nat && (n <=? 122)%nat)
  || (n =? 95)%nat.

(** [\d{n}] at the head of [l]: what follows the digits. *)
Fixpoint digits (n : nat) (l : list ascii) : option (list ascii) :=
  match n with
  | O => Some l
  | S n' =>
    match l with
    | c :: l' => if isDigit c then digits n' l' else None
    | [] => None
    end
  end.

(** [\b] after a word character: the end of the text or a non-word
    character. *)
Definition wordEnds (l : list ascii) : bool :=
  match l with
  | [] => true
  | c :: _ => negb (isWord c)
  end.

(** [/\b\d{5}\b/] anchored at the head of [l]; [prevWord] tells whether the
    character before it is a word character. *)
Definition zip5At (prevWord : bool) (l : list ascii) : option (list ascii) :=
  if prevWord then None
  else
    match digits 5 l with
    | Some rest => if wordEnds rest then Some (firstn 5 l) else None
    | None => None
    end.

(** [/\b\d{5}-\d{4}\b/] anchored at the head of [l]. *)
Definition zipPlus4At (prevWord : bool) (l : list ascii)
  : option (list ascii) :=
  if prevWord then None
  else
    match digits 5 l with
    | Some (c :: rest) =>
      if Ascii.eqb c "-" then
        match digits 4 rest with
        | Some rest' => if wordEnds rest' then Some (firstn 10 l) else None
        | None => None
        end
      else None
    | _ => None
    end.

(** [text.match(re)] for an anchored pattern [pat]: the leftmost match. *)
Fixpoint searchFrom (pat : bool -> list ascii -> option (list ascii))
  (prevWord : bool) (l : list ascii) : option (list ascii) :=
  match pat prevWord l with
  | Some m => Some m
  | None =>
    match l with
    | [] => None
    | c :: l' => searchFrom pat (isWord c) l'
    end
  end.

Definition String_match (pat : bool -> list ascii -> option (list ascii))
  (text : string) : option string :=
  option_map string_of_list_ascii
             (searchFrom pat false (list_ascii_of_string text)).

Definition extractZip (text : JSValue) : Completion string :=
  if negb (truthy text) then Normal ""%string
  else
    match text with
    | JStr s =>
      match String_match zip5At s with
      | Some zipMatch => Normal zipMatch
      | None =>
        match String_match zipPlus4At s with
        | Some zipPlus4Match => Normal (substring0 5 zipPlus4Match)
        | None => Normal ""%string
        end
      end
    | _ => Throw "TypeError: text.match is not a function"
    end.

Definition normalizeResource (res : RawRecord) (g : Rng)
  : Completion RawRecord * Rng :=
  let r := get res in
  if truthy (r "id") && truthy (r "name") && truthy (r "category")
  then (Normal res, g)
  else
    let sourceId := r "id" ||. r "resource_id" ||. r "organization_id" in
    let (id, g1) :=
      if truthy sourceId then (sourceId, g)
      else let (q, g') := Math_random g in (JNum q, g') in
    let name :=
      r "name" ||. r "organization_name" ||. r "title"
        ||. JStr "Unknown Resource" in
    match mapCategory (r "category" ||. r "service_category" ||. r "type")
    with
    | Throw e => (Throw e, g1)
    | Normal category =>
      let address :=
        r "address" ||. optGet (r "location") "address"
          ||. r "physical_address" ||. JStr "" in
      match extractZip (r "zip" ||. r "postal_code"
                          ||. optGet (r "location") "postal_code"
                          ||. r "address" ||. JStr "")
      with
      | Throw e => (Throw e, g1)
      | Normal zip =>
        (Normal
           (list_to_map
              [ ("id", id);
                ("name", name);
                ("category", category);
                ("address", address);
                ("zip", JStr zip);
                ("hours",
                 r "hours" ||. r "hours_of_operation" ||. r "schedule"
                   ||. JStr "Contact for hours");
                ("phone",
                 r "phone" ||. r "phone_number" ||. r "contact_phone"
                   ||. JStr "");
                ("website",
                 r "website" ||. r "url" ||. r "web_url" ||. JStr "");
                ("eligibilityNotes",
                 r "eligibilityNotes" ||. r "eligibility_notes"
                   ||. r "eligibility" ||. r "description" ||. JStr "");
                ("eligibilityTags",
                 r "eligibilityTags" ||. r "eligibility_tags" ||. r "tags"
                   ||. JArr []);
                ("languagesSupported",
                 r "languagesSupported" ||. r "languages_supported"
                   ||. r "languages" ||. JArr [JStr "English"]) ]%string),
         g1)
      end
    end.

(** The test of [normalizeResource] for a record already in our format. *)
Definition canonical (res : RawRecord) : bool :=
  truthy (get res "id") && truthy (get res "name")
  && truthy (get res "category").

(** The argument [normalizeResource] passes to [mapCategory]. *)
Definition categorySource (res : RawRecord) : JSValue :=
  get res "category" ||. get res "service_category" ||. get res "type".

(** The argument [normalizeResource] passes to [extractZip]. *)
Definition zipSource (res : RawRecord) : JSValue :=
  get res "zip" ||. get res "postal_code"
    ||. optGet (get res "location") "postal_code"
    ||. get res "address" ||. JStr "".

(** A string, or a value that the guards [!category] and [!text] catch. *)
Definition stringOrFalsy (v : JSValue) : bool :=
  match v with
  | JStr _ => true
  | _ => negb (truthy v)
  end.

Definition returns {A : Type} (c : Completion A) : bool :=
  match c with
  | Normal _ => true
  | Throw _ => false
  end.

(** Every property [normalizeResource] reads from a raw record. *)
Definition sourceFields : list string :=
  [ "id"; "resource_id"; "organization_id";
    "name"; "organization_name"; "title";
    "category"; "service_category"; "type";
    "address"; "location"; "physical_address";
    "zip"; "postal_code";
    "hours"; "hours_of_operation"; "schedule";
    "phone"; "phone_number"; "contact_phone";
    "website"; "url"; "web_url";
    "eligibilityNotes"; "eligibility_notes"; "eligibility"; "description";
    "eligibilityTags"; "eligibility_tags"; "tags";
    "languagesSupported"; "languages_supported"; "languages" ]%string.

(** The five categories of the catalog. *)
Definition canonicalCategories : list string :=
  [ "food"; "housing"; "mental_health"; "legal"; "jobs" ]%string.

(** The record [normalizeResource] builds from a record that has none of
    the fields it reads, when the id draw is [q]. *)
Definition defaultRecord (q : Q) : RawRecord :=
  list_to_map
    [ ("id", JNum q);
      ("name", JStr "Unknown Resource");
      ("category", JStr "other");
      ("address", JStr "");
      ("zip", JStr "");
      ("hours", JStr "Contact for hours");
      ("phone", JStr "");
      ("website", JStr "");
      ("eligibilityNotes", JStr "");
      ("eligibilityTags", JArr []);
      ("languagesSupported", JArr [JStr "English"]) ]%string.

(* ===================================================================== *)
(** * resourceService.js: sources and cache                               *)
(* ===================================================================== *)

(** What a call does to the outside: a request to the remote catalog, a
    read of the static file, a call of [normalizeResource]. *)
Inductive Effect : Type :=
  | FetchAPI
  | ReadJSONFile
  | Normalize.

(** The module-level [resourceCache]; [None] is [null]. *)
Record ResourceCache : Type := mkCache {
  data : option (list RawRecord);
  timestamp : option Z;
  ttl : Z
}.

Definition initialCache : ResourceCache :=
  {| data := None; timestamp := None; ttl := 3600000 |}.

(** The state of the process: the cache, the draws [Math.random()] will
    return, the values [Date.now()] will return, and the effects so far. *)
Record World : Type := mkWorld {
  resourceCache : ResourceCache;
  random : Rng;
  clock : nat -> Z;
  trace : list Effect
}.

(** The configuration and the answers of the outside during one call:
    [apiResponse] is the array picked from the body of the remote catalog
    ([None] when the request, its status or its body fails), [jsonFile] the
    array in [resources.json] ([None] when it cannot be read as one). *)
Record Env : Type := mkEnv {
  RESOURCE_DATA_SOURCE : option string;
  RESOURCE_API_URL : option string;
  apiResponse : option (list RawRecord);
  jsonFile : option (list RawRecord)
}.

Definition Date_now (w : World) : Z * World :=
  (clock w 0%nat,
   {| resourceCache := resourceCache w; random := random w;
      clock := fun n => clock w (S n); trace := trace w |}).

Definition emit (e : Effect) (w : World) : World :=
  {| resourceCache := resourceCache w; random := random w;
     clock := clock w; trace := trace w ++ [e] |}.

Definition setCache (c : ResourceCache) (w : World) : World :=
  {| resourceCache := c; random := random w;
     clock := clock w; trace := trace w |}.

(** One call of [normalizeResource] by a loader. *)
Definition callNormalize (r : RawRecord) (w : World)
  : Completion RawRecord * World :=
  let (c, g') := normalizeResource r (random w) in
  (c, {| resourceCache := resourceCache w; random := g';
         clock := clock w; trace := trace w ++ [Normalize] |}).

(** [resources.map(r => normalizeResource(r, source))] *)
Fixpoint mapNormalize (l : list RawRecord) (w : World)
  : Completion (list RawRecord) * World :=
  match l with
  | [] => (Normal [], w)
  | r :: l' =>
    match callNormalize r w with
    | (Throw e, w1) => (Throw e, w1)
    | (Normal y, w1) =>
      match mapNormalize l' w1 with
      | (Throw e, w2) => (Throw e, w2)
      | (Normal ys, w2) => (Normal (y :: ys), w2)
      end
    end
  end.

(** [loadFromJSON]: every error is caught and answered with []. *)
Definition loadFromJSON (env : Env) (w : World) : list RawRecord * World :=
  let w1 := emit ReadJSONFile w in
  match jsonFile env with
  | None => ([], w1)
  | Some resources =>
    match mapNormalize resources w1 with
    | (Normal l, w2) => (l, w2)
    | (Throw _, w2) => ([], w2)
    end
  end.

(** [fetchFromAPI]: every error is logged and thrown again. *)
Definition fetchFromAPI (env : Env) (w : World)
  : Completion (list RawRecord) * World :=
  let w1 := emit FetchAPI w in
  match apiResponse env with
  | None => (Throw "Error fetching from API", w1)
  | Some resources => mapNormalize resources w1
  end.

Definition fetchFromDatabase (w : World) : list RawRecord * World := ([], w).

(** [resourceCache.data = resources; resourceCache.timestamp = Date.now();
    return resources] *)
Definition updateCache (resources : list RawRecord) (w : World)
  : Completion (list RawRecord) * World :=
  let w1 := setCache {| data := Some resources;
                        timestamp := timestamp (resourceCache w);
                        ttl := ttl (resourceCache w) |} w in
  let (now, w2) := Date_now w1 in
  (Normal resources,
   setCache {| data := Some resources; timestamp := Some now;
               ttl := ttl (resourceCache w2) |} w2).

(** The body of the [try] of [getAllResources]. *)
Definition loadFromSource (env : Env) (dataSource : string) (w : World)
  : Completion (list RawRecord) * World :=
  let lower := toLowerCase dataSource in
  let (primary, w1) :=
    if String.eqb lower "api" then
      match RESOURCE_API_URL env with
      | None => (Throw "RESOURCE_API_URL not configured", w)
      | Some apiUrl =>
        if String.eqb apiUrl "" then
          (Throw "RESOURCE_API_URL not configured", w)
        else fetchFromAPI env w
      end
    else if String.eqb lower "database" then
      let (l, w') := fetchFromDatabase w in (Normal l, w')
    else
      let (l, w') := loadFromJSON env w in (Normal l, w') in
  match primary with
  | Throw e => (Throw e, w1)
  | Normal resources =>
    let (resources, w2) :=
      if (length resources =? 0)%nat && negb (String.eqb dataSource "json")
      then loadFromJSON env w1
      else (resources, w1) in
    updateCache resources w2
  end.

(** [getAllResources] past the cache check: the choice of the source, the
    [try] and its [catch]. *)
Definition reload (env : Env) (w : World)
  : Completion (list RawRecord) * World :=
  let dataSource :=
    match RESOURCE_DATA_SOURCE env with
    | Some s => if String.eqb s "" then "json"%string else s
    | None => "json"%string
    end in
  match loadFromSource env dataSource w with
  | (Normal resources, w1) => (Normal resources, w1)
  | (Throw e, w1) =>
    (* Always fall back to JSON on error *)
    if negb (String.eqb dataSource "json") then
      let (resources, w2) := loadFromJSON env w1 in
      updateCache resources w2
    else (Throw e, w1)
  end.

Definition getAllResources (env : Env) (w : World)
  : Completion (list RawRecord) * World :=
  (* Check cache first *)
  let (hit, w0) :=
    match data (resourceCache w), timestamp (resourceCache w) with
    | Some cached, Some stamp =>
      if negb (stamp =? 0) then
        let (now, w1) := Date_now w in
        let age := now - stamp in
        if age <? ttl (resourceCache w1) then (Some cached, w1)
        else (None, w1)
      else (None, w)
    | _, _ => (None, w)
    end in
  match hit with
  | Some cached => (Normal cached, w0)
  | None => reload env w0
  end.

Definition refreshResources (env : Env) (w : World)
  : Completion (list RawRecord) * World :=
  let w1 := setCache {| data := None; timestamp := None;
                        ttl := ttl (resourceCache w) |} w in
  getAllResources env w1.

(** The effects that fetch the catalog from a source. *)
Definition performsLoad (e : Effect) : bool :=
  match e with
  | FetchAPI | ReadJSONFile => true
  | Normalize => false
  end.

(** [refreshResources] before its read: the cache emptied. *)
Definition invalidated (w : World) : World :=
  setCache {| data := None; timestamp := None;
              ttl := ttl (resourceCache w) |} w.

(** The state a load leaves: the loaded list in the cache, stamped with the
    clock, the TTL as it was, and a source read on the way. *)
Definition loaded (w : World) (d : list RawRecord) (w' : World) : Prop :=
  data (resourceCache w') = Some d /\
  (exists t, timestamp (resourceCache w') = Some t) /\
  ttl (resourceCache w') = ttl (resourceCache w) /\
  exists sfx, trace w' = trace w ++ sfx /\ existsb performsLoad sfx = true.

(* ===================================================================== *)
(** * From a record's property to a field of the [Resource] interface    *)
(* ===================================================================== *)

Fixpoint asStrings (l : list JSValue) : option (list string) :=
  match l with
  | [] => Some []
  | JStr s :: l' => option_map (cons s) (asStrings l')
  | _ :: _ => None
  end.

(** The typed reading of a list-valued property ([eligibilityTags],
    [languagesSupported]): absent, or an array of strings; [None] for any
    other value. *)
Definition asStringArray (v : JSValue) : option (option (list string)) :=
  match v with
  | JUndefined | JNull => Some None
  | JArr l => option_map Some (asStrings l)
  | _ => None
  end.

(* ===================================================================== *)
(** * Orders on names                                                     *)
(* ===================================================================== *)

(** The case-sensitive lexicographic order: code unit by code unit. *)
Definition codeUnitLe (a b : string) : Prop := String.compare a b <> Gt.

Fixpoint lexCompare (a b : list Z) : Z :=
  match a, b with
  | [], [] => 0
  | [], _ :: _ => -1
  | _ :: _, [] => 1
  | x :: a', y :: b' =>
    if x <? y then -1 else if y <? x then 1 else lexCompare a' b'
  end.

Definition isUpperAZ (c : ascii) : bool :=
  let n := nat_of_ascii c in (65 <=? n)%nat && (n <=? 90)%nat.

Definition isLowerAZ (c : ascii) : bool :=
  let n := nat_of_ascii c in (97 <=? n)%nat && (n <=? 122)%nat.

(** Whether a string has one of the letters A-Z. *)
Fixpoint hasUpperAZ (s : string) : bool :=
  match s with
  | EmptyString => false
  | String c s' => isUpperAZ c || hasUpperAZ s'
  end.

(** The rank of a code unit at the first level of the collation: a letter
    ranks by its place in the alphabet, whatever its case, above every
    other code unit. *)
Definition primaryWeight (c : ascii) : Z :=
  if isUpperAZ c then 256 + (Z.of_nat (nat_of_ascii c) - 65)
  else if isLowerAZ c then 256 + (Z.of_nat (nat_of_ascii c) - 97)
  else Z.of_nat (nat_of_ascii c).

(** The rank at the case level: lower case first. *)
Definition caseWeight (c : ascii) : Z := if isUpperAZ c then 1 else 0.

(** [a.localeCompare(b)] under the default (root) collation of the host, for
    names made of the letters A-Z and a-z: the names are compared letter by
    letter without regard to case, and only when that finds no difference
    by case, lower before upper. Other code units are ranked below the
    letters by their value, which simplifies the collation table. *)
Definition rootCollation (a b : string) : Z :=
  let la := list_ascii_of_string a in
  let lb := list_ascii_of_string b in
  let primary := lexCompare (map primaryWeight la) (map primaryWeight lb) in
  if primary =? 0
  then lexCompare (map caseWeight la) (map caseWeight lb)
  else primary.

(* ===================================================================== *)
(** * The stages of [matchResources], named                               *)
(* ===================================================================== *)

(** [preferredLanguage = 'English'] in the destructuring. *)
Definition preferredOf (userInfo : UserInfo.t) : string :=
  match UserInfo.preferredLanguage userInfo with
  | Some l => l
  | None => "English"%string
  end.

(** Step 1. *)
Definition categoryStage (resources : list Resource.t)
  (userInfo : UserInfo.t) : list Resource.t :=
  List.filter
    (fun res => String.eqb (Resource.category res)
                           (UserInfo.primaryNeed userInfo))
    resources.

(** Steps 1 and 2. *)
Definition eligibilityStage (resources : list Resource.t)
  (userInfo : UserInfo.t) : list Resource.t :=
  List.filter (fun res => matchesEligibility res userInfo)
              (categoryStage resources userInfo).

(** [languageMatches] of step 3, over the output [matches] of step 2. *)
Definition languageSubset (matches : list Resource.t)
  (preferredLanguage : string) : list Resource.t :=
  List.filter (fun res => supportsLanguage res preferredLanguage) matches.

(** Step 3: [prioritizedMatches]. *)
Definition languageStage (matches : list Resource.t)
  (preferredLanguage : string) : list Resource.t :=
  if (0 <? length (languageSubset matches preferredLanguage))%nat
  then languageSubset matches preferredLanguage
  else matches.

(** Step 4 before the [slice]: the working set with its distances,
    sorted. *)
Definition rankAll (localeCompare : string -> string -> Z) (zip : string)
  (working : list Resource.t) (g : Rng) : list MatchResult :=
  Array_sort (compareMatches localeCompare)
             (fst (mapRng (withDistance zip) working g)).

(** The order of the comparator: nearer first, and by [localeCompare] of the
    names at the same distance. *)
Definition rankLe (localeCompare : string -> string -> Z)
  (a b : MatchResult) : Prop :=
  distance a <= distance b /\
  (distance a = distance b ->
   localeCompare (Resource.name (resource a)) (Resource.name (resource b))
   <= 0).

(** Two results that the comparator does not tell apart. *)
Definition sameRank (localeCompare : string -> string -> Z)
  (a b : MatchResult) : bool :=
  compareMatches localeCompare a b =? 0.

(** The order the ranking would have with ties broken by the
    case-sensitive lexicographic order of the names. *)
Definition codeUnitRankLe (a b : MatchResult) : Prop :=
  distance a <= distance b /\
  (distance a = distance b ->
   codeUnitLe (Resource.name (resource a)) (Resource.name (resource b))).

(** What the host guarantees of [localeCompare]: a consistent comparator. *)
Definition consistentCompare (localeCompare : string -> string -> Z)
  : Prop :=
  (forall a b, 0 < localeCompare a b -> localeCompare b a < 0) /\
  (forall a b, localeCompare a b < 0 -> 0 < localeCompare b a) /\
  (forall a b c, localeCompare a b <= 0 -> localeCompare b c <= 0 ->
                 localeCompare a c <= 0).

(* ===================================================================== *)
(** * Sample data                                                         *)
(* ===================================================================== *)

(** A random source whose every draw is one half. *)
Definition halfDraws : Rng := fun _ => (1 # 2)%Q.

(** The binary64 values that the literals [0.6] and [0.3] denote:
    5404319552844595 * 2^-53 and 5404319552844595 * 2^-54. *)
Definition sixTenths : Q := (5404319552844595 # 9007199254740992)%Q.
Definition threeTenths : Q := (5404319552844595 # 18014398509481984)%Q.

(** The largest binary64 value below 1: 1 - 2^-53. *)
Definition largestBelowOne : Q :=
  (9007199254740991 # 9007199254740992)%Q.

(** The criteria of the worked example: ZIP 94601, need food, low income,
    a household of one. *)
Definition sampleUser : UserInfo.t :=
  {| UserInfo.zip := "94601"; UserInfo.ageRange := "30-40";
     UserInfo.incomeBracket := "low"; UserInfo.householdSize := 1;
     UserInfo.primaryNeed := "food";
     UserInfo.preferredLanguage := Some "English"%string |}.

(** An open food resource in ZIP [z] named [n]. *)
Definition foodResource (i : Q) (n z : string) : Resource.t :=
  {| Resource.id := i; Resource.name := n; Resource.category := "food";
     Resource.address := ""; Resource.zip := z;
     Resource.hours := "Contact for hours"; Resource.phone := "";
     Resource.website := ""; Resource.eligibilityNotes := "";
     Resource.eligibilityTags := Some [];
     Resource.languagesSupported := Some ["English"%string] |}.

(** Two resources in the user's ZIP, the capitalised name first. *)
Definition sampleCatalog : list Resource.t :=
  [ foodResource 1 "Berkeley" "94601"; foodResource 2 "alameda" "94601" ].

(** A process that has just started, a clock that ticks once a second,
    and a configuration that reads the static file. *)
Definition sampleWorld : World :=
  {| resourceCache := initialCache; random := halfDraws;
     clock := fun n => 1700000000000 + 1000 * Z.of_nat n; trace := [] |}.

(** Raw records. *)
Definition zeroIdRecord : RawRecord :=
  list_to_map [ ("id", JNum 0); ("name", JStr "Food Pantry");
                ("category", JStr "food") ]%string.

Definition canonicalRecord : RawRecord :=
  list_to_map [ ("id", JNum 7); ("name", JStr "Food Pantry");
                ("category", JStr "food"); ("zip", JStr "94601") ]%string.

Definition foodBankRecord : RawRecord :=
  list_to_map [ ("name", JStr "Food Pantry"); ("category", JStr "Food Bank");
                ("address", JStr "1 Main St, Oakland, CA 94601") ]%string.

Definition numericCategoryRecord : RawRecord :=
  list_to_map [ ("name", JStr "Food Pantry"); ("category", JNum 42) ]%string.

Definition numericZipRecord : RawRecord :=
  list_to_map [ ("name", JStr "Food Pantry"); ("category", JStr "food");
                ("zip", JNum 94601) ]%string.

Definition constructorRecord : RawRecord :=
  list_to_map [ ("name", JStr "Builders Union");
                ("category", JStr "Constructor") ]%string.

Definition sampleEnv : Env :=
  {| RESOURCE_DATA_SOURCE := None; RESOURCE_API_URL := None;
     apiResponse := None;
     jsonFile := Some [canonicalRecord; foodBankRecord] |}.

(* ===================================================================== *)
(** * resourceService.js: the rest                                        *)
(* ===================================================================== *)

(** [process.env.RESOURCE_DATA_SOURCE || 'json'] *)
Definition dataSourceOf (env : Env) : string :=
  match RESOURCE_DATA_SOURCE env with
  | Some s => if String.eqb s "" then "json"%string else s
  | None => "json"%string
  end.

Definition getResourceCount (env : Env) (w : World)
  : Completion nat * World :=
  match getAllResources env w with
  | (Normal resources, w') => (Normal (length resources), w')
  | (Throw e, w') => (Throw e, w')
  end.

(** The first argument of the chain that gives the id. *)
Definition idSource (res : RawRecord) : JSValue :=
  get res "id" ||. get res "resource_id" ||. get res "organization_id".

(** A record on which [normalizeResource] returns. *)
Definition normalizable (res : RawRecord) : bool :=
  canonical res
  || (stringOrFalsy (categorySource res) && stringOrFalsy (zipSource res)).

(** The properties of the record [normalizeResource] builds. *)
Definition canonicalFields : list string :=
  [ "id"; "name"; "category"; "address"; "zip"; "hours"; "phone";
    "website"; "eligibilityNotes"; "eligibilityTags";
    "languagesSupported" ]%string.

(** A string of exactly five digits. *)
Definition fiveDigits (z : string) : bool :=
  (length (list_ascii_of_string z) =? 5)%nat
  && forallb isDigit (list_ascii_of_string z).

(* ===================================================================== *)
(** * aiService.js: the local action plan                                 *)
(* ===================================================================== *)

(** The [templates] object of [generateMockActionPlan]; a template literal
    over string properties is a concatenation. *)
Definition templates (res : Resource.t) : RawRecord :=
  let name := Resource.name res in
  let address := Resource.address res in
  let phone := Resource.phone res in
  let hours := Resource.hours res in
  let website := Resource.website res in
  list_to_map
    [ ("food",
       JArr
         [ JStr ("Call " +:+ phone +:+ " during " +:+ hours
                 +:+ " to check current availability.");
           JStr ("Visit " +:+ name +:+ " at " +:+ address
                 +:+ " during their open hours.");
           JStr ("Bring a valid ID and proof of address (if required). "
                 +:+ "No appointment needed for walk-ins.") ]);
      ("housing",
       JArr
         [ JStr ("Call " +:+ phone +:+ " or visit " +:+ website
                 +:+ " to learn about application requirements.");
           JStr ("Gather required documents: proof of income, ID, "
                 +:+ "and household information.");
           JStr ("Schedule an appointment or submit your application "
                 +:+ "online or in person.") ]);
      ("mental_health",
       JArr
         [ JStr ("Call " +:+ phone
                 +:+ " to speak with a counselor or schedule an appointment.");
           JStr ("If this is a crisis, call immediately - "
                 +:+ "services are available 24/7.");
           JStr ("Be ready to provide basic information about your "
                 +:+ "situation and insurance status (if applicable).") ]);
      ("legal",
       JArr
         [ JStr ("Call " +:+ phone +:+ " during " +:+ hours
                 +:+ " to request an intake appointment.");
           JStr ("Prepare a brief description of your legal issue "
                 +:+ "and any relevant documents.");
           JStr ("Attend your appointment - free legal services are "
                 +:+ "provided based on eligibility.") ]);
      ("jobs",
       JArr
         [ JStr ("Visit " +:+ name +:+ " at " +:+ address +:+ " or call "
                 +:+ phone +:+ " to learn about programs.");
           JStr ("Complete an intake form and assessment to determine "
                 +:+ "which services fit your needs.");
           JStr ("Attend orientation and training sessions to build "
                 +:+ "skills and connect with employers.") ]) ]%string.

(** [generateMockActionPlan]: the object [{ steps }]. *)
Definition generateMockActionPlan (res : Resource.t) : RawRecord :=
  let category := Resource.category res in
  let steps :=
    get (templates res) category
    ||. JArr
          [ JStr ("Contact " +:+ Resource.name res +:+ " at "
                  +:+ Resource.phone res +:+ " during "
                  +:+ Resource.hours res +:+ ".");
            JStr ("Visit their website at " +:+ Resource.website res
                  +:+ " for more information.");
            JStr ("Prepare any required documents and schedule an "
                  +:+ "appointment if needed.") ] in
  list_to_map [ ("steps"%string, steps) ].

(* ===================================================================== *)
(** * The results page                                                    *)
(* ===================================================================== *)

(** [formatDistance] of the results page; an integer in a template literal
    is written in decimal. *)
Definition formatDistance (distance : Z) : string :=
  if distance =? 0 then "Same ZIP code"%string
  else
    pretty distance +:+ " mile"
      +:+ (if negb (distance =? 1) then "s" else "") +:+ " away".

(* ===================================================================== *)
(** * More sample data                                                    *)
(* ===================================================================== *)

(** The criteria [userInfo] with another preferred language. *)
Definition withLanguage (userInfo : UserInfo.t) (p : option string)
  : UserInfo.t :=
  {| UserInfo.zip := UserInfo.zip userInfo;
     UserInfo.ageRange := UserInfo.ageRange userInfo;
     UserInfo.incomeBracket := UserInfo.incomeBracket userInfo;
     UserInfo.householdSize := UserInfo.householdSize userInfo;
     UserInfo.primaryNeed := UserInfo.primaryNeed userInfo;
     UserInfo.preferredLanguage := p |}.

(** What [normalizeResource] builds from [foodBankRecord] when the id
    draw is one half. *)
Definition foodBankBuilt : RawRecord :=
  match fst (normalizeResource foodBankRecord halfDraws) with
  | Normal out => out
  | Throw _ => ∅
  end.

(** A process whose cache was stamped long before the clock's reading. *)
Definition staleWorld : World :=
  {| resourceCache := {| data := Some [canonicalRecord];
                         timestamp := Some 1000; ttl := 3600000 |};
     random := halfDraws;
     clock := fun n => 1700000000000 + 1000 * Z.of_nat n; trace := [] |}.

(** A configuration that names the database, and one that names a remote
    catalog that answers with one record. *)
Definition databaseEnv : Env :=
  {| RESOURCE_DATA_SOURCE := Some "database"%string;
     RESOURCE_API_URL := None; apiResponse := None;
     jsonFile := Some [canonicalRecord; foodBankRecord] |}.

Definition apiEnv : Env :=
  {| RESOURCE_DATA_SOURCE := Some "API"%string;
     RESOURCE_API_URL := Some "https://catalog.example/resources"%string;
     apiResponse := Some [foodBankRecord];
     jsonFile := Some [canonicalRecord] |}.

(** A user from whom no tag is derived. *)
Definition untaggedUser : UserInfo.t :=
  {| UserInfo.zip := "94601"; UserInfo.ageRange := "25-34";
     UserInfo.incomeBracket := "moderate"; UserInfo.householdSize := 1;
     UserInfo.primaryNeed := "food";
     UserInfo.preferredLanguage := Some "English"%string |}.

(* ===================================================================== *)
(** * Lists, the random source and the sort                               *)
(* ===================================================================== *)

Lemma firstn_In_incl {A : Type} (n : nat) (l : list A) (x : A) :
  In x (firstn n l) -> In x l.
Proof.
  revert l; induction n as [|n IH]; intros [|y l] H; simpl in *; try tauto.
  destruct H as [H|H]; [left; exact H | right; apply IH; exact H].
Qed.

Lemma insertSorted_Permutation {A : Type} (cmp : A -> A -> Z) (x : A)
  (l : list A) : Permutation (insertSorted cmp x l) (x :: l).
Proof.
  induction l as [|y l IH]; simpl.
  - apply Permutation_refl.
  - destruct (0 <? cmp x y).
    + eapply Permutation_trans; [apply perm_skip, IH | apply perm_swap].
    + apply Permutation_refl.
Qed.

Lemma Array_sort_Permutation {A : Type} (cmp : A -> A -> Z) (l : list A) :
  Permutation (Array_sort cmp l) l.
Proof.
  induction l as [|x l IH]; simpl.
  - apply Permutation_refl.
  - eapply Permutation_trans; [apply insertSorted_Permutation|].
    apply perm_skip, IH.
Qed.

Lemma Array_sort_In {A : Type} (cmp : A -> A -> Z) (l : list A) (x : A) :
  In x (Array_sort cmp l) <-> In x l.
Proof.
  split; apply Permutation_in;
    [| apply Permutation_sym]; apply Array_sort_Permutation.
Qed.

Lemma withDistance_resource (z : string) (res : Resource.t) (g : Rng) :
  resource (fst (withDistance z res g)) = res.
Proof.
  unfold withDistance. destruct (calculateDistance z (Resource.zip res) g).
  reflexivity.
Qed.

Lemma mapRng_withDistance_resources (z : string) (l : list Resource.t)
  (g : Rng) : map resource (fst (mapRng (withDistance z) l g)) = l.
Proof.
  revert g; induction l as [|x l IH]; intros g; simpl; [reflexivity|].
  pose proof (withDistance_resource z x g) as Hx.
  destruct (withDistance z x g) as [y g1]. simpl in Hx.
  specialize (IH g1). destruct (mapRng (withDistance z) l g1) as [ys g2].
  simpl in *. congruence.
Qed.

Lemma calculateDistance_same (z : string) (g : Rng) :
  calculateDistance z z g = (0, g).
Proof. unfold calculateDistance. rewrite String.eqb_refl. reflexivity. Qed.

Lemma mapRng_withDistance_same_zip (z : string) (l : list Resource.t)
  (g : Rng) :
  Forall (fun m => Resource.zip (resource m) = z -> distance m = 0)
         (fst (mapRng (withDistance z) l g)).
Proof.
  revert g; induction l as [|x l IH]; intros g; simpl; [constructor|].
  unfold withDistance at 1.
  destruct (calculateDistance z (Resource.zip x) g) as [d g1] eqn:Hd.
  specialize (IH g1). destruct (mapRng (withDistance z) l g1) as [ys g2].
  simpl in *. constructor; [|exact IH].
  simpl. intros Hz. rewrite Hz, calculateDistance_same in Hd. congruence.
Qed.

Lemma matchResources_stages (lc : string -> string -> Z)
  (resources : list Resource.t) (userInfo : UserInfo.t) (g : Rng) :
  fst (matchResources lc resources userInfo g)
  = slice0 5 (rankAll lc (UserInfo.zip userInfo)
                (languageStage (eligibilityStage resources userInfo)
                               (preferredOf userInfo)) g).
Proof.
  unfold matchResources, rankAll, languageStage, languageSubset,
    eligibilityStage, categoryStage, preferredOf.
  destruct (mapRng _ _ g) as [ms g']. reflexivity.
Qed.

Lemma languageStage_incl (matches : list Resource.t) (pref : string)
  (r : Resource.t) : In r (languageStage matches pref) -> In r matches.
Proof.
  unfold languageStage, languageSubset.
  destruct (0 <? length _)%nat; [|tauto].
  intros H. apply filter_In in H. tauto.
Qed.

Lemma matchResources_from_stage2 (lc : string -> string -> Z)
  (resources : list Resource.t) (userInfo : UserInfo.t) (g : Rng)
  (m : MatchResult) :
  In m (fst (matchResources lc resources userInfo g)) ->
  In (resource m) (eligibilityStage resources userInfo).
Proof.
  rewrite matchResources_stages. unfold slice0, rankAll. intros H.
  apply firstn_In_incl, Array_sort_In in H.
  apply (in_map resource) in H.
  rewrite mapRng_withDistance_resources in H.
  eapply languageStage_incl; exact H.
Qed.

(* ===================================================================== *)
(** * The match engine                                                    *)
(* ===================================================================== *)

(** C1. Whatever the resource list and the criteria, [matchResources]
    returns (it is a total function) at most 5 results, each a resource of
    the input whose category is the criteria's [primaryNeed]; an empty
    input, an input without a resource of that category, or one whose
    resources of that category all fail the eligibility filter, gives the
    empty list. *)
Theorem matchResources_at_most_5_of_category
  (localeCompare : string -> string -> Z) (resources : list Resource.t)
  (userInfo : UserInfo.t) (g : Rng) :
  let out := fst (matchResources localeCompare resources userInfo g) in
  (length out <= 5)%nat /\
  Forall (fun m => Resource.category (resource m)
                   = UserInfo.primaryNeed userInfo
                   /\ In (resource m) resources) out /\
  (resources = [] -> out = []) /\
  ((forall r, In r resources ->
      Resource.category r <> UserInfo.primaryNeed userInfo) -> out = []) /\
  (eligibilityStage resources userInfo = [] -> out = []).
Proof.
  intros out.
  assert (Hnil : eligibilityStage resources userInfo = [] -> out = []).
  { intros H. subst out. rewrite matchResources_stages, H. reflexivity. }
  split; [|split; [|split; [|split]]].
  - subst out. rewrite matchResources_stages. apply firstn_le_length.
  - apply List.Forall_forall. intros m Hm.
    apply matchResources_from_stage2 in Hm.
    unfold eligibilityStage, categoryStage in Hm.
    apply filter_In in Hm. destruct Hm as [Hm _].
    apply filter_In in Hm. destruct Hm as [Hin Hc].
    apply String.eqb_eq in Hc. split; assumption.
  - intros ->. apply Hnil. reflexivity.
  - intros Hno. apply Hnil.
    unfold eligibilityStage, categoryStage.
    destruct (List.filter _ (List.filter _ resources)) as [|r l] eqn:E;
      [reflexivity|].
    assert (Hr : In r (r :: l)) by (left; reflexivity).
    rewrite <- E in Hr. apply filter_In in Hr. destruct Hr as [Hr _].
    apply filter_In in Hr. destruct Hr as [Hin Hc].
    apply String.eqb_eq in Hc. exfalso. exact (Hno r Hin Hc).
  - exact Hnil.
Qed.

Lemma pow2_pos (e : Z) : (0 < 2 ^ e)%Q.
Proof. apply Qpower_0_lt. reflexivity. Qed.

Lemma Qdiv_le_mono (p1 q1 p2 q2 : Q) :
  (0 < q2)%Q -> (q2 <= q1)%Q -> (0 <= p1)%Q -> (p1 <= p2)%Q ->
  (p1 / q1 <= p2 / q2)%Q.
Proof.
  intros Hq2 Hq Hp1 Hp.
  assert (Hq1 : (0 < q1)%Q) by (eapply Qlt_le_trans; eassumption).
  apply Qle_shift_div_l; [exact Hq2|].
  apply Qle_trans with (p1 / q1 * q1)%Q.
  - apply Qmult_le_compat_nonneg.
    + split; [|apply Qle_refl].
      apply Qle_shift_div_l; [exact Hq1|]. rewrite Qmult_0_l. exact Hp1.
    + split; [apply Qlt_le_weak; exact Hq2 | exact Hq].
  - unfold Qdiv. rewrite <- Qmult_assoc, (Qmult_comm (/ q1)).
    rewrite Qmult_inv_r, Qmult_1_r; [exact Hp|].
    intros E. rewrite E in Hq1. discriminate.
Qed.

Lemma pow2_inject (a : Z) : 0 <= a -> (2 ^ a == inject_Z (2 ^ a))%Q.
Proof. intros H. rewrite (Zpower_Qpower 2 a H). reflexivity. Qed.

Lemma log2Floor_spec (x : Q) :
  (0 < x)%Q ->
  (2 ^ log2Floor x <= x)%Q /\ (x < 2 ^ (log2Floor x + 1))%Q.
Proof.
  intros Hx. unfold log2Floor.
  destruct x as [n d]. cbn [Qnum Qden].
  assert (Hn : 0 < n).
  { unfold Qlt in Hx. simpl in Hx. lia. }
  set (a := Z.log2 n). set (b := Z.log2 (Z.pos d)).
  pose proof (Z.log2_spec n Hn) as [Ha1 Ha2]. fold a in Ha1, Ha2.
  pose proof (Z.log2_spec (Z.pos d) ltac:(lia)) as [Hb1 Hb2].
  fold b in Hb1, Hb2.
  pose proof (Z.log2_nonneg n) as Ha0. fold a in Ha0.
  pose proof (Z.log2_nonneg (Z.pos d)) as Hb0. fold b in Hb0.
  assert (Ex : (n # d == inject_Z n / inject_Z (Z.pos d))%Q)
    by apply Qmake_Qdiv.
  assert (Hd : (0 < inject_Z (Z.pos d))%Q).
  { change 0%Q with (inject_Z 0). rewrite <- Zlt_Qlt. lia. }
  assert (Hlow : (2 ^ (a - b - 1) <= n # d)%Q).
  { replace (a - b - 1) with (a - (b + 1)) by lia.
    rewrite Qpower_minus by discriminate.
    rewrite Ex, (pow2_inject a Ha0), (pow2_inject (b + 1)) by lia.
    apply Qdiv_le_mono; try exact Hd.
    - rewrite <- Zle_Qle. unfold Z.succ in Hb2. lia.
    - change 0%Q with (inject_Z 0). rewrite <- Zle_Qle. lia.
    - rewrite <- Zle_Qle. exact Ha1. }
  assert (Hup : (n # d < 2 ^ (a - b + 1))%Q).
  { replace (a - b + 1) with (a + 1 - b) by lia.
    rewrite Qpower_minus by discriminate.
    rewrite Ex, (pow2_inject (a + 1)), (pow2_inject b Hb0) by lia.
    apply Qlt_le_trans with (inject_Z (2 ^ (a + 1)) / inject_Z (Z.pos d))%Q.
    - apply Qmult_lt_compat_r; [apply Qinv_lt_0_compat; exact Hd|].
      rewrite <- Zlt_Qlt. unfold Z.succ in Ha2. exact Ha2.
    - apply Qdiv_le_mono.
      + change 0%Q with (inject_Z 0). rewrite <- Zlt_Qlt. lia.
      + rewrite <- Zle_Qle. exact Hb1.
      + change 0%Q with (inject_Z 0). rewrite <- Zle_Qle. lia.
      + apply Qle_refl. }
  destruct (Qle_bool (2 ^ (a - b)) (n # d)) eqn:E.
  - apply Qle_bool_iff in E. split; [exact E | exact Hup].
  - split; [exact Hlow|].
    replace (a - b - 1 + 1) with (a - b) by lia.
    apply Qnot_le_lt. intros H. apply Qle_bool_iff in H. congruence.
Qed.

Lemma log2Floor_le (x : Q) (j : Z) :
  (0 < x)%Q -> (x < 2 ^ (j + 1))%Q -> log2Floor x <= j.
Proof.
  intros Hx Hj. destruct (log2Floor_spec x Hx) as [Hl _].
  assert (H : (2 ^ log2Floor x < 2 ^ (j + 1))%Q)
    by (eapply Qle_lt_trans; eassumption).
  apply Qpower_lt_compat_l_inv in H; [lia | reflexivity].
Qed.


Lemma roundHalfEven_floor (y : Q) :
  Qfloor y <= roundHalfEven y <= Qfloor y + 1.
Proof.
  unfold roundHalfEven.
  destruct (y - inject_Z (Qfloor y) ?= 1 # 2)%Q; [destruct (Z.even _)| |];
    lia.
Qed.

Lemma roundHalfEven_nonneg (y : Q) : (0 <= y)%Q -> 0 <= roundHalfEven y.
Proof.
  intros Hy. pose proof (roundHalfEven_floor y) as [H _].
  assert (0 <= Qfloor y); [|lia].
  change 0 with (Qfloor (inject_Z 0)). apply Qfloor_resp_le. exact Hy.
Qed.

Lemma roundHalfEven_le (y : Q) (t : Z) :
  (y <= inject_Z t)%Q -> roundHalfEven y <= t.
Proof.
  intros Hy. pose proof (Qfloor_le y) as Hf. pose proof (Qlt_floor y) as Hc.
  assert (Hft : Qfloor y <= t).
  { rewrite <- (Qfloor_Z t). apply Qfloor_resp_le, Hy. }
  unfold roundHalfEven.
  destruct (Qcompare_spec (y - inject_Z (Qfloor y)) (1 # 2)) as [E|E|E];
    [destruct (Z.even _)| |]; try lia.
  - assert (Qfloor y <> t); [|lia]. intros Heq. subst t. lra.
  - assert (Qfloor y <> t); [|lia]. intros Heq. subst t. lra.
Qed.

Lemma roundHalfEven_lt (y : Q) (t : Z) :
  (y < inject_Z t - (1 # 2))%Q -> roundHalfEven y < t.
Proof.
  intros Hy. pose proof (Qfloor_le y) as Hf.
  assert (Hft : Qfloor y < t).
  { rewrite Zlt_Qlt. lra. }
  unfold roundHalfEven.
  destruct (Qcompare_spec (y - inject_Z (Qfloor y)) (1 # 2)) as [E|E|E];
    [destruct (Z.even _)| |]; try lia.
  - assert (Qfloor y + 1 <> t); [|lia]. intros Heq. subst t.
    rewrite inject_Z_plus in Hy. change (inject_Z 1) with 1%Q in Hy. lra.
  - assert (Qfloor y + 1 <> t); [|lia]. intros Heq. subst t.
    rewrite inject_Z_plus in Hy. change (inject_Z 1) with 1%Q in Hy. lra.
Qed.

Lemma roundHalfEven_nearest (y : Q) :
  (inject_Z (roundHalfEven y) - y <= 1 # 2)%Q
  /\ (y - inject_Z (roundHalfEven y) <= 1 # 2)%Q.
Proof.
  pose proof (Qfloor_le y) as Hf. pose proof (Qlt_floor y) as Hc.
  rewrite inject_Z_plus in Hc. change (inject_Z 1) with 1%Q in Hc.
  unfold roundHalfEven.
  destruct (Qcompare_spec (y - inject_Z (Qfloor y)) (1 # 2)) as [E|E|E];
    [destruct (Z.even _)| |];
    rewrite ?inject_Z_plus; change (inject_Z 1) with 1%Q; split; lra.
Qed.

(** The rounded value is within half a unit in the last place. *)
Lemma roundPos_nearest (x : Q) :
  let e := Z.max (-1074) (log2Floor x - 52) in
  (roundPos x - x <= (1 # 2) * 2 ^ e)%Q
  /\ (x - roundPos x <= (1 # 2) * 2 ^ e)%Q.
Proof.
  intros e. unfold roundPos. fold e.
  pose proof (pow2_pos e) as Hpe.
  destruct (roundHalfEven_nearest (x / 2 ^ e)) as [H1 H2].
  set (M := inject_Z (roundHalfEven (x / 2 ^ e))) in *.
  assert (Hx : (x == x / 2 ^ e * 2 ^ e)%Q).
  { unfold Qdiv. rewrite <- Qmult_assoc, (Qmult_comm (/ _)), Qmult_inv_r.
    - ring.
    - intros Hc. rewrite Hc in Hpe. discriminate. }
  set (y := (x / 2 ^ e)%Q) in *. set (E := (2 ^ e)%Q) in *.
  split.
  - assert (Hfac : (M * E - x == (M - y) * E)%Q) by (rewrite Hx at 1; ring).
    rewrite Hfac.
    apply Qmult_le_compat_r; [exact H1 | apply Qlt_le_weak, Hpe].
  - assert (Hfac : (x - M * E == (y - M) * E)%Q) by (rewrite Hx at 1; ring).
    rewrite Hfac.
    apply Qmult_le_compat_r; [exact H2 | apply Qlt_le_weak, Hpe].
Qed.

Lemma roundDouble_nonneg (x : Q) : (0 <= x)%Q -> (0 <= roundDouble x)%Q.
Proof.
  intros Hx. unfold roundDouble.
  destruct (Qcompare_spec x 0) as [E|E|E]; [apply Qle_refl | lra |].
  unfold roundPos. apply Qmult_le_0_compat.
  - change 0%Q with (inject_Z 0). rewrite <- Zle_Qle.
    apply roundHalfEven_nonneg. apply Qle_shift_div_l; [apply pow2_pos|].
    lra.
  - apply Qlt_le_weak, pow2_pos.
Qed.


Lemma roundDouble_pos (x : Q) :
  (0 < x)%Q -> roundDouble x = roundPos x.
Proof.
  intros Hx. unfold roundDouble.
  destruct (Qcompare_spec x 0) as [E|E|E]; [lra | lra | reflexivity].
Qed.

Lemma roundDouble_zero (x : Q) : (x == 0)%Q -> roundDouble x = 0%Q.
Proof.
  intros Hx. unfold roundDouble.
  destruct (Qcompare_spec x 0) as [E|E|E]; [reflexivity | lra | lra].
Qed.

(** A double below 1 is at most 1 - 2^-53. *)
Lemma binary64_below_one (r : Q) :
  isBinary64 r = true -> (0 <= r)%Q -> (r < 1)%Q ->
  (r <= 1 - (1 # 9007199254740992))%Q.
Proof.
  intros Hb H0 H1. unfold isBinary64 in Hb. apply Qeq_bool_iff in Hb.
  destruct (Qle_lt_or_eq _ _ H0) as [Hpos|Hz]; [|lra].
  rewrite (roundDouble_pos r Hpos) in Hb. unfold roundPos in Hb.
  destruct (log2Floor_spec r Hpos) as [_ Hup].
  assert (HL : log2Floor r <= -1).
  { apply log2Floor_le; [exact Hpos|]. exact H1. }
  set (e := Z.max (-1074) (log2Floor r - 52)) in Hb.
  assert (He : e <= -53) by lia.
  assert (He' : log2Floor r + 1 - e <= 53) by lia.
  set (M := roundHalfEven (r / 2 ^ e)) in Hb.
  assert (HM : M <= 9007199254740992).
  { apply roundHalfEven_le. apply Qle_shift_div_r; [apply pow2_pos|].
    apply Qlt_le_weak. eapply Qlt_le_trans; [exact Hup|].
    replace (log2Floor r + 1) with ((log2Floor r + 1 - e) + e) by lia.
    rewrite Qpower_plus by discriminate.
    apply Qmult_le_compat_r; [|apply Qlt_le_weak, pow2_pos].
    change (inject_Z 9007199254740992) with ((2:Q) ^ 53)%Q.
    apply Qpower_le_compat_l; [lia | discriminate]. }
  assert (HM0 : 0 <= M).
  { apply roundHalfEven_nonneg. apply Qle_shift_div_l; [apply pow2_pos|].
    lra. }
  destruct (Z.eq_dec e (-53)) as [E|E].
  - rewrite E in Hb.
    change ((2:Q) ^ (-53))%Q with (1 # 9007199254740992)%Q in Hb.
    assert (HM1 : M < 9007199254740992).
    { rewrite Zlt_Qlt.
      change (inject_Z 9007199254740992) with (9007199254740992 # 1)%Q.
      lra. }
    assert (HM2 : (inject_Z M <= inject_Z 9007199254740991)%Q)
      by (rewrite <- Zle_Qle; lia).
    change (inject_Z 9007199254740991) with (9007199254740991 # 1)%Q in HM2.
    lra.
  - assert (Hp : ((2:Q) ^ e <= 2 ^ (-54))%Q)
      by (apply Qpower_le_compat_l; [lia | discriminate]).
    change ((2:Q) ^ (-54))%Q with (1 # 18014398509481984)%Q in Hp.
    pose proof (pow2_pos e) as Hp0.
    assert (HMq : (inject_Z M <= 9007199254740992 # 1)%Q)
      by (change (9007199254740992 # 1)%Q with (inject_Z 9007199254740992);
          rewrite <- Zle_Qle; exact HM).
    assert (HMq0 : (0 <= inject_Z M)%Q)
      by (change 0%Q with (inject_Z 0); rewrite <- Zle_Qle; exact HM0).
    assert (Hprod : (inject_Z M * 2 ^ e
                     <= (9007199254740992 # 1) * (1 # 18014398509481984))%Q).
    { apply Qmult_le_compat_nonneg; split; try assumption.
      apply Qlt_le_weak. exact Hp0. }
    rewrite Hb in Hprod. lra.
Qed.


Lemma floor_rounded_draw (r : Q) (k j : Z) :
  isBinary64 r = true -> (0 <= r)%Q -> (r < 1)%Q ->
  0 <= j <= 52 -> 2 ^ j < k < 2 ^ (j + 1) ->
  0 <= Qfloor (roundDouble (r * inject_Z k)) <= k - 1.
Proof.
  intros Hb H0 H1 Hj Hk.
  assert (Hk0 : 0 < k) by (pose proof (Z.pow_pos_nonneg 2 j); lia).
  assert (Hkq : (0 < inject_Z k)%Q)
    by (change 0%Q with (inject_Z 0); rewrite <- Zlt_Qlt; exact Hk0).
  set (x := (r * inject_Z k)%Q).
  assert (Hx0 : (0 <= x)%Q).
  { unfold x. apply Qmult_le_0_compat; [exact H0 | apply Qlt_le_weak, Hkq]. }
  split.
  { change 0 with (Qfloor (inject_Z 0)). apply Qfloor_resp_le.
    apply roundDouble_nonneg, Hx0. }
  destruct (Qle_lt_or_eq _ _ Hx0) as [Hpos|Hz].
  2: { rewrite (roundDouble_zero x) by (symmetry; exact Hz).
       change (Qfloor 0) with 0. lia. }
  rewrite (roundDouble_pos x Hpos).
  pose proof (binary64_below_one r Hb H0 H1) as Hr.
  assert (Hxk : (x < inject_Z k)%Q).
  { unfold x. rewrite <- (Qmult_1_l (inject_Z k)) at 2.
    apply Qmult_lt_compat_r; assumption. }
  assert (HL : log2Floor x <= j).
  { apply log2Floor_le; [exact Hpos|].
    eapply Qlt_trans; [exact Hxk|].
    rewrite (pow2_inject (j + 1)) by lia. rewrite <- Zlt_Qlt. lia. }
  unfold roundPos.
  set (e := Z.max (-1074) (log2Floor x - 52)).
  assert (He : e <= j - 52) by lia.
  set (p := - e).
  assert (Hp : 52 - j <= p) by lia.
  assert (Hp0 : 0 <= p) by lia.
  pose proof (pow2_pos e) as Hpe.
  assert (Hinv : (2 ^ e * inject_Z (2 ^ p) == 1)%Q).
  { rewrite <- (pow2_inject p Hp0). rewrite <- Qpower_plus by discriminate.
    replace (e + p) with 0 by lia. reflexivity. }
  set (P := inject_Z (2 ^ p)) in *.
  set (E := ((2:Q) ^ e)%Q) in *.
  assert (HP : (0 < P)%Q).
  { unfold P. change 0%Q with (inject_Z 0). rewrite <- Zlt_Qlt.
    apply Z.pow_pos_nonneg; lia. }
  assert (Hy : (x / E == x * P)%Q).
  { unfold Qdiv. apply Qmult_inj_r with (z := E).
    - intros Hc. rewrite Hc in Hpe. discriminate.
    - rewrite <- !Qmult_assoc, (Qmult_comm P E), Hinv.
      rewrite (Qmult_comm (/ E)), Qmult_inv_r; [reflexivity|].
      intros Hc. rewrite Hc in Hpe. discriminate. }
  set (P0 := inject_Z (2 ^ (52 - j))).
  assert (HP0 : (P0 <= P)%Q).
  { unfold P0, P. rewrite <- Zle_Qle. apply Z.pow_le_mono_r; lia. }
  assert (HP00 : (0 < P0)%Q).
  { unfold P0. change 0%Q with (inject_Z 0). rewrite <- Zlt_Qlt.
    apply Z.pow_pos_nonneg; lia. }
  assert (HA : ((1 # 2) < inject_Z k * P0 * (1 # 9007199254740992))%Q).
  { unfold P0. rewrite <- inject_Z_mult.
    assert (HZ : 2 ^ 52 < k * 2 ^ (52 - j)).
    { replace (2 ^ 52) with (2 ^ j * 2 ^ (52 - j))
        by (rewrite <- Z.pow_add_r by lia; f_equal; lia).
      apply Z.mul_lt_mono_pos_r; [apply Z.pow_pos_nonneg; lia | lia]. }
    rewrite Zlt_Qlt in HZ.
    change (inject_Z (2 ^ 52)) with (4503599627370496 # 1)%Q in HZ. lra. }
  assert (Hgap : ((1 # 2) < inject_Z k * P - x * P)%Q).
  { eapply Qlt_le_trans; [exact HA|].
    assert (Hfac : (inject_Z k * P - x * P == inject_Z k * P * (1 - r))%Q)
      by (unfold x; ring).
    rewrite Hfac.
    apply Qmult_le_compat_nonneg.
    - split.
      + apply Qmult_le_0_compat; apply Qlt_le_weak; assumption.
      + apply Qmult_le_l; assumption.
    - split; [discriminate | lra]. }
  assert (HM : roundHalfEven (x / E) < k * 2 ^ p).
  { apply roundHalfEven_lt. rewrite Hy, inject_Z_mult. fold P. lra. }
  assert (Hv : (inject_Z (roundHalfEven (x / E)) * E < inject_Z k)%Q).
  { apply Qlt_le_trans with (inject_Z (k * 2 ^ p) * E)%Q.
    - apply Qmult_lt_compat_r; [exact Hpe|]. rewrite <- Zlt_Qlt. exact HM.
    - rewrite inject_Z_mult. fold P.
      rewrite <- Qmult_assoc, (Qmult_comm P E), Hinv, Qmult_1_r.
      apply Qle_refl. }
  assert (Qfloor (inject_Z (roundHalfEven (x / E)) * E) < k); [|lia].
  rewrite Zlt_Qlt. eapply Qle_lt_trans; [apply Qfloor_le | exact Hv].
Qed.

Lemma floor_draw_product_nonneg (r : Q) (k : Z) :
  (0 <= r)%Q -> 0 <= k -> 0 <= Math_floor (Number_mul r (inject_Z k)).
Proof.
  intros Hr Hk. unfold Math_floor, Number_mul.
  change 0 with (Qfloor (inject_Z 0)). apply Qfloor_resp_le.
  apply roundDouble_nonneg. apply Qmult_le_0_compat; [exact Hr|].
  change 0%Q with (inject_Z 0). rewrite <- Zle_Qle. exact Hk.
Qed.

(** The floor of the rounded product of a draw by 5 is from 0 to 4, and by
    10 from 0 to 9: rounding does not take the product up to 5 or to 10. *)
Lemma floor_draw_times_5_10 (r : Q) :
  isBinary64 r = true -> (0 <= r)%Q -> (r < 1)%Q ->
  0 <= Math_floor (Number_mul r 5) <= 4
  /\ 0 <= Math_floor (Number_mul r 10) <= 9.
Proof.
  intros Hb H0 H1. unfold Math_floor, Number_mul. split.
  - apply (floor_rounded_draw r 5 2 Hb H0 H1); [lia|]. split; reflexivity.
  - apply (floor_rounded_draw r 10 3 Hb H0 H1); [lia|]. split; reflexivity.
Qed.

(** The rounding shows in the distance: the exact product of the draw
    [0.6] by 5 is below 3 and is rounded to 3, and that of [0.3] by 10
    likewise, so the distances are 4 and 8 where the floors of the exact
    products would give 3 and 7; the largest draw gives 5 and 14. *)
Example calculateDistance_rounds_the_product :
  isBinary64 sixTenths = true /\ isBinary64 threeTenths = true
  /\ isBinary64 largestBelowOne = true
  /\ fst (calculateDistance "94601" "94612" (fun _ => sixTenths)) = 4
  /\ Qfloor (sixTenths * 5) + 1 = 3
  /\ fst (calculateDistance "94601" "10001" (fun _ => threeTenths)) = 8
  /\ Qfloor (threeTenths * 10) + 5 = 7
  /\ fst (calculateDistance "94601" "94612" (fun _ => largestBelowOne)) = 5
  /\ fst (calculateDistance "94601" "10001" (fun _ => largestBelowOne)) = 14.
Proof. repeat split; vm_compute; reflexivity. Qed.

(** C3. The distance of two ZIP strings, under the contract of
    [Math.random()] (every draw a binary64 value in [0, 1)) and with the
    products rounded as binary64 rounds them: a non-negative integer; 0
    when the two are the same string; from 1 to 5 when they differ and
    their first three code units agree; from 5 to 14 otherwise. And in any
    result of [matchResources], an element whose ZIP is the criteria's ZIP
    has distance 0. *)
Theorem calculateDistance_three_tiers (zip1 zip2 : string) (g : Rng)
  (Hdraws : unitDraws g) (Hdoubles : doubleDraws g) :
  let d := fst (calculateDistance zip1 zip2 g) in
  0 <= d /\
  (zip1 = zip2 -> d = 0) /\
  (zip1 <> zip2 -> substring0 3 zip1 = substring0 3 zip2 -> 1 <= d <= 5) /\
  (zip1 <> zip2 -> substring0 3 zip1 <> substring0 3 zip2 ->
   5 <= d <= 14) /\
  (forall (localeCompare : string -> string -> Z)
          (resources : list Resource.t) (userInfo : UserInfo.t),
      Forall (fun m => Resource.zip (resource m) = UserInfo.zip userInfo ->
                       distance m = 0)
             (fst (matchResources localeCompare resources userInfo g))).
Proof.
  intros d.
  destruct (Hdraws 0%nat) as [H0 H1].
  destruct (floor_draw_times_5_10 (g 0%nat) (Hdoubles 0%nat) H0 H1)
    as [H5 H10].
  assert (Hd : d = if String.eqb zip1 zip2 then 0
                   else if String.eqb (substring0 3 zip1) (substring0 3 zip2)
                        then Math_floor (Number_mul (g 0%nat) 5) + 1
                        else Math_floor (Number_mul (g 0%nat) 10) + 5).
  { subst d. unfold calculateDistance, Math_random.
    destruct (String.eqb zip1 zip2); [reflexivity|].
    destruct (String.eqb (substring0 3 zip1) (substring0 3 zip2));
      reflexivity. }
  clearbody d. subst d.
  destruct (String.eqb_spec zip1 zip2) as [He|He];
    destruct (String.eqb_spec (substring0 3 zip1) (substring0 3 zip2))
      as [Hp|Hp];
    (split; [lia|]); (split; [intros; try lia; contradiction|]);
    (split; [intros; try lia; contradiction|]);
    (split; [intros; try lia; contradiction|]).
  all: intros lc resources userInfo; rewrite matchResources_stages;
    apply List.Forall_forall; intros m Hm;
    unfold slice0, rankAll in Hm;
    apply firstn_In_incl, Array_sort_In in Hm;
    pose proof (mapRng_withDistance_same_zip (UserInfo.zip userInfo)
                  (languageStage (eligibilityStage resources userInfo)
                                 (preferredOf userInfo)) g) as HF;
    rewrite List.Forall_forall in HF; exact (HF m Hm).
Qed.

Lemma includes_In (l : list string) (x : string) :
  includes l x = true <-> In x l.
Proof.
  unfold includes. rewrite existsb_exists. split.
  - intros (y & Hy & He). apply String.eqb_eq in He. subst. exact Hy.
  - intros H. exists x. split; [exact H | apply String.eqb_refl].
Qed.

Lemma deriveUserTags_In (userInfo : UserInfo.t) (t : string) :
  In t (deriveUserTags userInfo) <->
  (t = "low_income"%string /\
   (UserInfo.incomeBracket userInfo = "low"%string
    \/ UserInfo.incomeBracket userInfo = "very_low"%string))
  \/ (t = "senior"%string /\ UserInfo.ageRange userInfo = "65+"%string)
  \/ (t = "parent"%string /\ 1 < UserInfo.householdSize userInfo).
Proof.
  unfold deriveUserTags.
  destruct (String.eqb_spec (UserInfo.incomeBracket userInfo) "low");
    destruct (String.eqb_spec (UserInfo.incomeBracket userInfo) "very_low");
    destruct (String.eqb_spec (UserInfo.ageRange userInfo) "65+");
    destruct (Z.ltb_spec 1 (UserInfo.householdSize userInfo));
    simpl; intuition (try congruence; try lia; auto).
Qed.

(** C4. The eligibility filter. The user tags are exactly those the three
    rules give: [low_income] for an income bracket [low] or [very_low],
    [senior] for the age range [65+], [parent] for a household size above
    1. A resource without tags (absent or empty list) passes; a resource
    with tags passes exactly when no user tag was derived or some tag of
    the resource is a user tag. User tags [low_income] alone against
    resource tags [senior] alone: excluded. *)
Theorem matchesEligibility_permissive (res : Resource.t)
  (userInfo : UserInfo.t) :
  (forall t, In t (deriveUserTags userInfo) <->
     (t = "low_income"%string /\
      (UserInfo.incomeBracket userInfo = "low"%string
       \/ UserInfo.incomeBracket userInfo = "very_low"%string))
     \/ (t = "senior"%string /\ UserInfo.ageRange userInfo = "65+"%string)
     \/ (t = "parent"%string /\ 1 < UserInfo.householdSize userInfo)) /\
  (Resource.eligibilityTags res = None \/
   Resource.eligibilityTags res = Some [] ->
   matchesEligibility res userInfo = true) /\
  (forall tags, Resource.eligibilityTags res = Some tags -> tags <> [] ->
     (matchesEligibility res userInfo = true <->
      deriveUserTags userInfo = [] \/
      exists t, In t tags /\ In t (deriveUserTags userInfo))) /\
  (Resource.eligibilityTags res = Some ["senior"%string] ->
   deriveUserTags userInfo = ["low_income"%string] ->
   matchesEligibility res userInfo = false).
Proof.
  split; [apply deriveUserTags_In|].
  split; [|split].
  - unfold matchesEligibility. intros [-> | ->]; reflexivity.
  - intros tags Ht Hne. unfold matchesEligibility. rewrite Ht.
    destruct tags as [|t0 tags']; [contradiction|].
    cbn [length Nat.eqb Nat.ltb Nat.leb andb].
    destruct (deriveUserTags userInfo) as [|u us] eqn:Hu.
    + cbn. split; [intros _; left; reflexivity | reflexivity].
    + cbn [length Nat.ltb Nat.leb].
      rewrite existsb_exists. split.
      * intros (t & Hin & Hinc). apply includes_In in Hinc.
        right. exists t. split; assumption.
      * intros [Hnil | (t & Hin & Hinc)]; [discriminate|].
        exists t. split; [exact Hin | apply includes_In; exact Hinc].
  - intros Ht Hu. unfold matchesEligibility. rewrite Ht, Hu. reflexivity.
Qed.

Lemma supportsLanguage_spec (res : Resource.t) (pref : string) :
  supportsLanguage res pref = true <->
  Resource.languagesSupported res = None
  \/ Resource.languagesSupported res = Some []
  \/ exists langs lang,
       Resource.languagesSupported res = Some langs /\ In lang langs
       /\ toLowerCase lang = toLowerCase pref.
Proof.
  unfold supportsLanguage.
  destruct (Resource.languagesSupported res) as [[|l0 ls]|].
  - cbn. intuition.
  - cbn [length Nat.eqb]. rewrite existsb_exists. split.
    + intros (lang & Hin & He). apply String.eqb_eq in He.
      right; right. exists (l0 :: ls), lang. auto.
    + intros [H|[H|(langs & lang & H & Hin & He)]]; try discriminate.
      injection H as <-. exists lang. split; [exact Hin|].
      apply String.eqb_eq. exact He.
  - intuition.
Qed.

Lemma languageStage_nonempty (matches : list Resource.t) (pref : string) :
  languageSubset matches pref <> [] ->
  languageStage matches pref = languageSubset matches pref.
Proof.
  unfold languageStage.
  destruct (languageSubset matches pref); [contradiction | reflexivity].
Qed.

Lemma languageStage_empty (matches : list Resource.t) (pref : string) :
  languageSubset matches pref = [] -> languageStage matches pref = matches.
Proof. unfold languageStage. intros ->. reflexivity. Qed.

(** C5. The language stage. Its subset holds the resources of the
    eligibility stage's output that list the preferred language up to case,
    or that list no language at all (absent or empty list). A non-empty
    subset becomes the working set; an empty one leaves the eligibility
    stage's output as the working set, so the working set is empty only
    when that output is; and the result is then the first 5 of that output
    ranked by distance. *)
Theorem languageStage_soft_filter (localeCompare : string -> string -> Z)
  (resources : list Resource.t) (userInfo : UserInfo.t) (g : Rng) :
  let stage2 := eligibilityStage resources userInfo in
  let pref := preferredOf userInfo in
  let subset := languageSubset stage2 pref in
  (forall r, In r subset <->
     In r stage2 /\
     (Resource.languagesSupported r = None
      \/ Resource.languagesSupported r = Some []
      \/ exists langs lang,
           Resource.languagesSupported r = Some langs /\ In lang langs
           /\ toLowerCase lang = toLowerCase pref)) /\
  (subset <> [] -> languageStage stage2 pref = subset) /\
  (subset = [] -> languageStage stage2 pref = stage2) /\
  (languageStage stage2 pref = [] <-> stage2 = []) /\
  fst (matchResources localeCompare resources userInfo g)
  = slice0 5 (rankAll localeCompare (UserInfo.zip userInfo)
                (languageStage stage2 pref) g) /\
  (subset = [] ->
   fst (matchResources localeCompare resources userInfo g)
   = slice0 5 (rankAll localeCompare (UserInfo.zip userInfo) stage2 g)).
Proof.
  intros stage2 pref subset.
  split; [|split; [|split; [|split; [|split]]]].
  - intros r. unfold subset, languageSubset. rewrite filter_In.
    rewrite supportsLanguage_spec. tauto.
  - apply languageStage_nonempty.
  - apply languageStage_empty.
  - split.
    + intros H. destruct subset as [|r l] eqn:E.
      * rewrite languageStage_empty in H; assumption.
      * rewrite languageStage_nonempty in H by (fold subset; congruence).
        fold subset in H. congruence.
    + intros ->. reflexivity.
  - apply matchResources_stages.
  - intros H. rewrite matchResources_stages.
    fold stage2 pref. rewrite languageStage_empty by exact H. reflexivity.
Qed.

Section SortFacts.

Context {A : Type} (cmp : A -> A -> Z).
Hypothesis cmp_anti : forall a b, 0 < cmp a b -> cmp b a < 0.
Hypothesis cmp_trans :
  forall a b c, cmp a b <= 0 -> cmp b c <= 0 -> cmp a c <= 0.

Lemma insertSorted_sorted (x : A) (l : list A) :
  StronglySorted (fun a b => cmp a b <= 0) l ->
  StronglySorted (fun a b => cmp a b <= 0) (insertSorted cmp x l).
Proof.
  induction 1 as [|y l Hl IH Hy]; simpl.
  - constructor; constructor.
  - destruct (Z.ltb_spec 0 (cmp x y)) as [Hxy|Hxy].
    + constructor; [exact IH|].
      eapply Permutation_Forall;
        [apply Permutation_sym, insertSorted_Permutation|].
      constructor; [|exact Hy].
      specialize (cmp_anti _ _ Hxy). lia.
    + constructor; [constructor; assumption|].
      constructor; [exact Hxy|].
      eapply List.Forall_impl; [|exact Hy].
      intros z Hz. simpl in Hz. eapply cmp_trans; eassumption.
Qed.

Lemma Array_sort_sorted (l : list A) :
  StronglySorted (fun a b => cmp a b <= 0) (Array_sort cmp l).
Proof.
  induction l as [|x l IH]; simpl; [constructor|].
  apply insertSorted_sorted, IH.
Qed.

Lemma insertSorted_stable (x a : A) (l : list A) :
  List.filter (fun y => cmp x y =? 0) (insertSorted cmp a l)
  = List.filter (fun y => cmp x y =? 0) (a :: l).
Proof.
  induction l as [|y l IH]; [reflexivity|].
  cbn [insertSorted].
  destruct (Z.ltb_spec 0 (cmp a y)) as [Hay|Hay]; [|reflexivity].
  cbn [List.filter] in *. rewrite IH.
  destruct (Z.eqb_spec (cmp x a) 0) as [Hxa|Hxa];
    destruct (Z.eqb_spec (cmp x y) 0) as [Hxy|Hxy]; try reflexivity.
  exfalso.
  assert (Hax : cmp a x <= 0).
  { destruct (Z.ltb_spec 0 (cmp a x)) as [H|H]; [|exact H].
    specialize (cmp_anti _ _ H). lia. }
  assert (H : cmp a y <= 0) by (eapply cmp_trans; [exact Hax | lia]).
  lia.
Qed.

Lemma Array_sort_stable (x : A) (l : list A) :
  List.filter (fun y => cmp x y =? 0) (Array_sort cmp l)
  = List.filter (fun y => cmp x y =? 0) l.
Proof.
  induction l as [|a l IH]; [reflexivity|].
  cbn [Array_sort foldr]. fold (Array_sort cmp l).
  rewrite insertSorted_stable. cbn [List.filter]. rewrite IH. reflexivity.
Qed.

Hypothesis cmp_anti_neg : forall a b, cmp a b < 0 -> 0 < cmp b a.

Lemma cmp_refl (x : A) : cmp x x = 0.
Proof.
  destruct (Z.lt_trichotomy (cmp x x) 0) as [H|[H|H]]; [|exact H|].
  - specialize (cmp_anti_neg _ _ H). lia.
  - specialize (cmp_anti _ _ H). lia.
Qed.

(** A sorted list is determined by what each class of the comparator holds,
    in order: two stable sorts of one list are the same list. *)
Lemma stable_sorted_unique (l1 l2 : list A) :
  StronglySorted (fun a b => cmp a b <= 0) l1 ->
  StronglySorted (fun a b => cmp a b <= 0) l2 ->
  (forall x, List.filter (fun y => cmp x y =? 0) l1
             = List.filter (fun y => cmp x y =? 0) l2) ->
  l1 = l2.
Proof.
  intros H1; revert l2; induction H1 as [|x l1 Hs1 IH Hx]; intros l2 H2 Hf.
  - destruct l2 as [|y l2]; [reflexivity|].
    specialize (Hf y). cbn [List.filter] in Hf.
    rewrite cmp_refl in Hf. discriminate.
  - destruct H2 as [|y l2 Hs2 Hy].
    { specialize (Hf x). cbn [List.filter] in Hf.
      rewrite cmp_refl in Hf. discriminate. }
    assert (Hyx : cmp y x <= 0).
    { pose proof (Hf x) as E. cbn [List.filter] in E.
      rewrite cmp_refl in E. cbn in E.
      destruct (Z.eqb_spec (cmp x y) 0) as [E0|E0].
      - destruct (Z.ltb_spec 0 (cmp y x)) as [L|L]; [|exact L].
        specialize (cmp_anti _ _ L). lia.
      - assert (Hin : In x (List.filter (fun z => cmp x z =? 0) l2))
          by (rewrite <- E; left; reflexivity).
        apply filter_In in Hin. destruct Hin as [Hin _].
        rewrite List.Forall_forall in Hy. apply Hy, Hin. }
    assert (Hxy : cmp x y <= 0).
    { pose proof (Hf y) as E. cbn [List.filter] in E.
      rewrite cmp_refl in E. cbn in E.
      destruct (Z.eqb_spec (cmp y x) 0) as [E0|E0].
      - destruct (Z.ltb_spec 0 (cmp x y)) as [L|L]; [|exact L].
        specialize (cmp_anti _ _ L). lia.
      - assert (Hin : In y (List.filter (fun z => cmp y z =? 0) l1))
          by (rewrite E; left; reflexivity).
        apply filter_In in Hin. destruct Hin as [Hin _].
        rewrite List.Forall_forall in Hx. apply Hx, Hin. }
    assert (E0 : cmp x y = 0).
    { destruct (Z.lt_trichotomy (cmp x y) 0) as [L|[L|L]];
        [|exact L|lia].
      specialize (cmp_anti_neg _ _ L). lia. }
    assert (Exy : x = y).
    { pose proof (Hf x) as E. cbn [List.filter] in E.
      rewrite cmp_refl, E0 in E. cbn in E. congruence. }
    subst y. f_equal. apply IH; [exact Hs2|].
    intros z. specialize (Hf z). cbn [List.filter] in Hf.
    destruct (cmp z x =? 0); congruence.
Qed.

End SortFacts.

Lemma StronglySorted_firstn {A : Type} (R : A -> A -> Prop) (n : nat)
  (l : list A) : StronglySorted R l -> StronglySorted R (firstn n l).
Proof.
  intros H; revert n; induction H as [|x l Hl IH Hx]; intros [|n]; simpl;
    try constructor.
  - apply IH.
  - apply List.Forall_forall. intros y Hy. apply firstn_In_incl in Hy.
    rewrite List.Forall_forall in Hx. apply Hx, Hy.
Qed.

Lemma StronglySorted_weaken {A : Type} (R S : A -> A -> Prop) (l : list A) :
  (forall a b, R a b -> S a b) -> StronglySorted R l -> StronglySorted S l.
Proof.
  intros HRS H. induction H as [|x l Hl IH Hx]; constructor; [exact IH|].
  eapply List.Forall_impl; [|exact Hx]. intros y. apply HRS.
Qed.

Lemma compareMatches_le (lc : string -> string -> Z) (a b : MatchResult) :
  compareMatches lc a b <= 0 <-> rankLe lc a b.
Proof.
  unfold compareMatches, rankLe.
  destruct (Z.eqb_spec (distance a) (distance b)) as [E|E]; simpl.
  - split; [intros H; split; [lia | intros _; exact H] | intros [_ H]; auto].
  - split; [intros H; split; [lia | intros; contradiction] | lia].
Qed.

Lemma compareMatches_anti (lc : string -> string -> Z) :
  consistentCompare lc ->
  forall a b, 0 < compareMatches lc a b -> compareMatches lc b a < 0.
Proof.
  intros [Hanti _] a b. unfold compareMatches.
  destruct (Z.eqb_spec (distance a) (distance b)) as [E|E];
    destruct (Z.eqb_spec (distance b) (distance a)) as [E'|E'];
    simpl; try lia; try congruence.
  apply Hanti.
Qed.

Lemma compareMatches_anti_neg (lc : string -> string -> Z) :
  consistentCompare lc ->
  forall a b, compareMatches lc a b < 0 -> 0 < compareMatches lc b a.
Proof.
  intros (_ & Hneg & _) a b. unfold compareMatches.
  destruct (Z.eqb_spec (distance a) (distance b)) as [E|E];
    destruct (Z.eqb_spec (distance b) (distance a)) as [E'|E'];
    simpl; try lia; try congruence.
  apply Hneg.
Qed.

Lemma compareMatches_trans (lc : string -> string -> Z) :
  consistentCompare lc ->
  forall a b c, compareMatches lc a b <= 0 -> compareMatches lc b c <= 0 ->
                compareMatches lc a c <= 0.
Proof.
  intros (_ & _ & Htrans) a b c. rewrite !compareMatches_le. unfold rankLe.
  intros [H1 H2] [H3 H4]. split; [lia|].
  intros E. eapply Htrans; [apply H2 | apply H4]; lia.
Qed.

Lemma lexCompare_antisym (a b : list Z) : lexCompare b a = - lexCompare a b.
Proof.
  revert b; induction a as [|x a IH]; intros [|y b]; simpl; try reflexivity.
  destruct (Z.ltb_spec x y), (Z.ltb_spec y x); try lia. apply IH.
Qed.

Lemma lexCompare_eq (a b : list Z) : lexCompare a b = 0 -> a = b.
Proof.
  revert b; induction a as [|x a IH]; intros [|y b]; simpl;
    try reflexivity; try discriminate.
  destruct (Z.ltb_spec x y) as [Hxy|Hxy], (Z.ltb_spec y x) as [Hyx|Hyx];
    try discriminate; try lia.
  intros E. f_equal; [lia | apply IH, E].
Qed.

Lemma lexCompare_refl (a : list Z) : lexCompare a a = 0.
Proof.
  induction a as [|x a IH]; simpl; [reflexivity|].
  rewrite Z.ltb_irrefl. exact IH.
Qed.

Lemma lexCompare_trans (a b c : list Z) :
  lexCompare a b <= 0 -> lexCompare b c <= 0 -> lexCompare a c <= 0.
Proof.
  revert b c; induction a as [|x a IH]; intros [|y b] [|z c]; simpl;
    try lia.
  destruct (Z.ltb_spec x y), (Z.ltb_spec y x), (Z.ltb_spec y z),
    (Z.ltb_spec z y), (Z.ltb_spec x z), (Z.ltb_spec z x); try lia.
  apply IH.
Qed.

Lemma rootCollation_consistent : consistentCompare rootCollation.
Proof.
  assert (Hopp : forall a b, rootCollation b a = - rootCollation a b).
  { intros a b. unfold rootCollation.
    rewrite (lexCompare_antisym (map primaryWeight (list_ascii_of_string a))).
    rewrite (lexCompare_antisym (map caseWeight (list_ascii_of_string a))).
    set (p := lexCompare (map primaryWeight (list_ascii_of_string a)) _).
    set (t := lexCompare (map caseWeight (list_ascii_of_string a)) _).
    destruct (Z.eqb_spec p 0), (Z.eqb_spec (- p) 0); lia. }
  split; [intros a b; rewrite (Hopp a b); lia|].
  split; [intros a b; rewrite (Hopp a b); lia|].
  clear Hopp.
  - intros a b c. unfold rootCollation.
    set (pa := map primaryWeight (list_ascii_of_string a)).
    set (pb := map primaryWeight (list_ascii_of_string b)).
    set (pc := map primaryWeight (list_ascii_of_string c)).
    set (ta := map caseWeight (list_ascii_of_string a)).
    set (tb := map caseWeight (list_ascii_of_string b)).
    set (tc := map caseWeight (list_ascii_of_string c)).
    clearbody pa pb pc ta tb tc.
    pose proof (lexCompare_trans pa pb pc) as Hp.
    pose proof (lexCompare_trans ta tb tc) as Ht.
    pose proof (lexCompare_antisym pa pb) as Hab.
    pose proof (lexCompare_refl pa) as Ha.
    pose proof (lexCompare_refl pb) as Hb.
    destruct (Z.eqb_spec (lexCompare pa pb) 0) as [E1|E1];
      destruct (Z.eqb_spec (lexCompare pb pc) 0) as [E2|E2];
      destruct (Z.eqb_spec (lexCompare pa pc) 0) as [E3|E3]; intros H1 H2;
      try (apply lexCompare_eq in E1);
      try (apply lexCompare_eq in E2);
      try (apply lexCompare_eq in E3);
      subst; auto; lia.
Qed.

(** C2, as the code has it. When the host's [localeCompare] is a
    consistent comparator, the result is the first 5 entries of a stable
    sort of the working set with its distances: a permutation of it, in
    non-decreasing order of distance and, at equal distance, in the order
    of [localeCompare] on the names, in which the elements the comparator
    does not tell apart keep the order they had; and there is one such
    list only. *)
Theorem matchResources_sorted_by_distance_then_localeCompare
  (localeCompare : string -> string -> Z)
  (Hconsistent : consistentCompare localeCompare)
  (resources : list Resource.t) (userInfo : UserInfo.t) (g : Rng) :
  let working := languageStage (eligibilityStage resources userInfo)
                               (preferredOf userInfo) in
  let annotated :=
    fst (mapRng (withDistance (UserInfo.zip userInfo)) working g) in
  let ranked := rankAll localeCompare (UserInfo.zip userInfo) working g in
  let out := fst (matchResources localeCompare resources userInfo g) in
  out = firstn 5 ranked /\
  Permutation ranked annotated /\
  StronglySorted (rankLe localeCompare) ranked /\
  StronglySorted (rankLe localeCompare) out /\
  (forall x, List.filter (sameRank localeCompare x) ranked
             = List.filter (sameRank localeCompare x) annotated) /\
  (forall l,
     StronglySorted (rankLe localeCompare) l ->
     (forall x, List.filter (sameRank localeCompare x) l
                = List.filter (sameRank localeCompare x) annotated) ->
     l = ranked).
Proof.
  intros working annotated ranked out.
  assert (Hsorted : StronglySorted (rankLe localeCompare) ranked).
  { pose proof (Array_sort_sorted (compareMatches localeCompare)
                  (compareMatches_anti _ Hconsistent)
                  (compareMatches_trans _ Hconsistent) annotated) as H.
    eapply StronglySorted_weaken; [|exact H].
    intros a b Hab. apply compareMatches_le, Hab. }
  assert (Hout : out = firstn 5 ranked)
    by (apply matchResources_stages).
  split; [exact Hout|].
  split; [apply Array_sort_Permutation|].
  split; [exact Hsorted|].
  split; [rewrite Hout; apply StronglySorted_firstn, Hsorted|].
  assert (Hstable : forall x,
    List.filter (sameRank localeCompare x) ranked
    = List.filter (sameRank localeCompare x) annotated).
  { intros x. apply (Array_sort_stable (compareMatches localeCompare)).
    - apply compareMatches_anti, Hconsistent.
    - apply compareMatches_trans, Hconsistent. }
  split; [exact Hstable|].
  intros l Hl Hf.
  apply (stable_sorted_unique (compareMatches localeCompare)
           (compareMatches_anti _ Hconsistent)
           (compareMatches_anti_neg _ Hconsistent)).
  - eapply StronglySorted_weaken; [|exact Hl].
    intros a b. apply compareMatches_le.
  - eapply StronglySorted_weaken; [|exact Hsorted].
    intros a b. apply compareMatches_le.
  - intros x. exact (eq_trans (Hf x) (eq_sym (Hstable x))).
Qed.

Lemma halfDraws_unit : unitDraws halfDraws.
Proof. intros n. unfold halfDraws. split; reflexivity || discriminate. Qed.

Lemma matchResources_sorted_by_distance_then_localeCompare_witness :
  consistentCompare rootCollation /\
  StronglySorted (rankLe rootCollation)
    (fst (matchResources rootCollation sampleCatalog sampleUser halfDraws)).
Proof.
  split; [exact rootCollation_consistent|].
  exact (proj1 (proj2 (proj2 (proj2
    (matchResources_sorted_by_distance_then_localeCompare
       rootCollation rootCollation_consistent
       sampleCatalog sampleUser halfDraws))))).
Defined.

(** C2, as stated, fails. Under the root collation, which puts "alameda"
    before "Berkeley", two resources at distance 0 come out in that order,
    while the case-sensitive lexicographic order puts "Berkeley" first. *)
Lemma matchResources_ties_not_in_code_unit_order :
  consistentCompare rootCollation /\
  map (fun m => (Resource.name (resource m), distance m))
      (fst (matchResources rootCollation sampleCatalog sampleUser halfDraws))
  = [("alameda"%string, 0); ("Berkeley"%string, 0)] /\
  ~ StronglySorted codeUnitRankLe
      (fst (matchResources rootCollation sampleCatalog sampleUser halfDraws)).
Proof.
  split; [exact rootCollation_consistent|].
  split; [vm_compute; reflexivity|].
  intros H.
  assert (E : fst (matchResources rootCollation sampleCatalog sampleUser
                     halfDraws)
              = [ {| resource := foodResource 2 "alameda" "94601";
                     distance := 0 |};
                  {| resource := foodResource 1 "Berkeley" "94601";
                     distance := 0 |} ])
    by (vm_compute; reflexivity).
  rewrite E in H. apply StronglySorted_inv in H. destruct H as [_ H].
  apply Forall_inv in H. destruct H as [_ H].
  apply (H eq_refl). vm_compute. reflexivity.
Qed.

Lemma halfDraws_double : doubleDraws halfDraws.
Proof. intros n. reflexivity. Qed.

Lemma calculateDistance_three_tiers_witness :
  unitDraws halfDraws /\ doubleDraws halfDraws /\
  1 <= fst (calculateDistance "94601" "94612" halfDraws) <= 5.
Proof.
  split; [exact halfDraws_unit|]. split; [exact halfDraws_double|].
  apply (calculateDistance_three_tiers "94601" "94612" halfDraws
           halfDraws_unit halfDraws_double); [discriminate | reflexivity].
Defined.

(* ===================================================================== *)
(** * The resource normalizer                                             *)
(* ===================================================================== *)

Lemma jsOr_truthy_r (a b : JSValue) :
  truthy b = true -> truthy (a ||. b) = true.
Proof. unfold jsOr. destruct (truthy a) eqn:E; auto. Qed.

Lemma normalizeResource_canonical (res : RawRecord) (g : Rng) :
  canonical res = true -> normalizeResource res g = (Normal res, g).
Proof.
  unfold canonical, normalizeResource. intros ->. reflexivity.
Qed.

Lemma mapCategory_returns (v : JSValue) :
  returns (mapCategory v) = stringOrFalsy v.
Proof.
  unfold mapCategory, stringOrFalsy.
  destruct v as [| |b|q|s|l|m|w]; simpl; try reflexivity.
  - destruct b; reflexivity.
  - destruct (Qeq_bool q 0); reflexivity.
  - destruct (negb (s =? ""))%string; reflexivity.
Qed.

Lemma extractZip_returns (v : JSValue) :
  returns (extractZip v) = stringOrFalsy v.
Proof.
  unfold extractZip, stringOrFalsy.
  destruct v as [| |b|q|s|l|m|w]; simpl; try reflexivity.
  - destruct b; reflexivity.
  - destruct (Qeq_bool q 0); reflexivity.
  - destruct (negb (s =? ""))%string; [|reflexivity].
    destruct (String_match zip5At s); [reflexivity|].
    destruct (String_match zipPlus4At s); reflexivity.
Qed.

Lemma normalizeResource_returns (res : RawRecord) (g : Rng) :
  returns (fst (normalizeResource res g))
  = canonical res
    || (stringOrFalsy (categorySource res) && stringOrFalsy (zipSource res)).
Proof.
  rewrite <- mapCategory_returns, <- extractZip_returns.
  unfold normalizeResource. fold (canonical res).
  fold (categorySource res). fold (zipSource res).
  destruct (canonical res); [reflexivity|].
  destruct (truthy _); [|destruct (Math_random g)];
    destruct (mapCategory (categorySource res));
    destruct (extractZip (zipSource res)); reflexivity.
Qed.

(** Properties of the record [normalizeResource] builds. *)
Lemma normalizeResource_fields (res out : RawRecord) (g g' : Rng) :
  canonical res = false ->
  normalizeResource res g = (Normal out, g') ->
  (exists c, mapCategory (categorySource res) = Normal c
             /\ out !! "category"%string = Some c) /\
  out !! "name"%string
  = Some (get res "name" ||. get res "organization_name"
            ||. get res "title" ||. JStr "Unknown Resource") /\
  out !! "languagesSupported"%string
  = Some (get res "languagesSupported" ||. get res "languages_supported"
            ||. get res "languages" ||. JArr [JStr "English"]).
Proof.
  unfold normalizeResource. fold (canonical res) (categorySource res).
  intros ->.
  destruct (truthy _); [|destruct (Math_random g)];
    destruct (mapCategory (categorySource res)) as [c|e];
    try discriminate;
    destruct (extractZip _); try discriminate;
    intros H; injection H as <- _;
    (split; [exists c; split; reflexivity | split; reflexivity]).
Qed.

Lemma toLowerCase_nonempty (s : string) :
  s <> ""%string -> toLowerCase s <> ""%string.
Proof. destruct s; [congruence | discriminate]. Qed.

Lemma mapCategory_truthy (v c : JSValue) :
  mapCategory v = Normal c -> truthy c = true.
Proof.
  unfold mapCategory. destruct (truthy v) eqn:Hv; simpl.
  - destruct v; try discriminate. intros H. injection H as <-.
    apply jsOr_truthy_r. simpl in *.
    destruct (String.eqb_spec s ""); [discriminate|].
    destruct (String.eqb_spec (toLowerCase s) ""); [|reflexivity].
    exfalso. eapply toLowerCase_nonempty; eassumption.
  - intros H. injection H as <-. reflexivity.
Qed.

(** What [normalizeResource] builds is again in our format, unless its id
    is a draw that came out as 0. *)
Lemma normalizeResource_output_canonical (res out : RawRecord) (g g' : Rng) :
  normalizeResource res g = (Normal out, g') ->
  truthy (get out "id") = true ->
  canonical out = true.
Proof.
  destruct (canonical res) eqn:Hc.
  - rewrite normalizeResource_canonical by exact Hc.
    intros H _. injection H as <- _. exact Hc.
  - intros H Hid.
    destruct (normalizeResource_fields _ _ _ _ Hc H)
      as ((c & Hm & Hcat) & Hname & _).
    apply mapCategory_truthy in Hm.
    unfold canonical, get at 2 3. rewrite Hid, Hname, Hcat, Hm.
    rewrite jsOr_truthy_r by reflexivity. reflexivity.
Qed.

(** C6, as the code has it. A raw record whose [id], [name] and [category]
    are all truthy (present, and none of 0, the empty string, null or
    false) comes back unchanged, without a draw; so normalizing it a second
    time changes nothing either. *)
Theorem normalizeResource_truthy_fields_unchanged (res : RawRecord) (g : Rng)
  (Hid : truthy (get res "id") = true)
  (Hname : truthy (get res "name") = true)
  (Hcategory : truthy (get res "category") = true) :
  normalizeResource res g = (Normal res, g) /\
  (forall out g', normalizeResource res g = (Normal out, g') ->
                  normalizeResource out g' = (Normal out, g')).
Proof.
  assert (H : forall g0, normalizeResource res g0 = (Normal res, g0)).
  { intros g0. apply normalizeResource_canonical. unfold canonical.
    rewrite Hid, Hname, Hcategory. reflexivity. }
  split; [apply H|].
  intros out g'. rewrite H. intros E. injection E as <- <-. apply H.
Qed.

Lemma normalizeResource_truthy_fields_unchanged_witness :
  normalizeResource canonicalRecord halfDraws
  = (Normal canonicalRecord, halfDraws).
Proof.
  apply (normalizeResource_truthy_fields_unchanged canonicalRecord
           halfDraws); reflexivity.
Defined.

(** C6, as stated, fails. A record that has [id], [name] and [category],
    with the id 0, is rebuilt: it gets a drawn id and the default fields. *)
Lemma normalizeResource_zero_id_rebuilt :
  is_Some (zeroIdRecord !! "id"%string) /\
  is_Some (zeroIdRecord !! "name"%string) /\
  is_Some (zeroIdRecord !! "category"%string) /\
  fst (normalizeResource zeroIdRecord halfDraws) <> Normal zeroIdRecord /\
  exists out,
    fst (normalizeResource zeroIdRecord halfDraws) = Normal out /\
    out !! "id"%string = Some (JNum (1 # 2)) /\
    out !! "hours"%string = Some (JStr "Contact for hours") /\
    zeroIdRecord !! "hours"%string = None.
Proof.
  split; [eexists; reflexivity|].
  split; [eexists; reflexivity|].
  split; [eexists; reflexivity|].
  assert (E : exists out,
    fst (normalizeResource zeroIdRecord halfDraws) = Normal out /\
    out !! "id"%string = Some (JNum (1 # 2)) /\
    out !! "hours"%string = Some (JStr "Contact for hours") /\
    zeroIdRecord !! "hours"%string = None).
  { eexists. split; [vm_compute; reflexivity|].
    split; [|split]; vm_compute; reflexivity. }
  split; [|exact E].
  destruct E as (out & -> & _ & Hh & Hz). intros H. injection H as ->.
  rewrite Hz in Hh. discriminate.
Qed.

Lemma lowerUnit_not_upper (c : ascii) : isUpperAZ (lowerUnit c) = false.
Proof. destruct c as [[] [] [] [] [] [] [] []]; reflexivity. Qed.

Lemma toLowerCase_no_upper (s : string) : hasUpperAZ (toLowerCase s) = false.
Proof.
  induction s as [|c s IH]; simpl; [reflexivity|].
  rewrite lowerUnit_not_upper, IH. reflexivity.
Qed.

Lemma objectPrototype_lower (s : string) :
  toLowerCase s <> "constructor"%string ->
  toLowerCase s <> "__proto__"%string ->
  assoc (toLowerCase s) objectPrototype = None.
Proof.
  intros Hc Hp. pose proof (toLowerCase_no_upper s) as Hu.
  unfold objectPrototype. cbn [assoc].
  repeat match goal with
  | |- context [String.eqb (toLowerCase s) ?k] =>
    destruct (String.eqb_spec (toLowerCase s) k) as [E|_];
      [first [contradiction | rewrite E in Hu; discriminate Hu]|]
  end.
  reflexivity.
Qed.

Lemma categoryMap_values (k : string) (v : JSValue) :
  categoryMap !! k = Some v ->
  exists c, v = JStr c /\ In c canonicalCategories.
Proof.
  intros H. apply elem_of_list_to_map_2, list_elem_of_In in H.
  simpl in H.
  repeat (destruct H as [H|H];
          [injection H as _ <-; eexists; split; [reflexivity|];
           simpl; tauto|]).
  contradiction.
Qed.

(** Every non-empty category string other than the two lower-case names a
    plain object inherits ([constructor], [__proto__]) is mapped as the
    table says, up to case: to the canonical category of its synonym, or to
    itself in lower case; the outcome is a non-empty string. *)
Lemma mapCategory_string (s : string) :
  s <> ""%string ->
  toLowerCase s <> "constructor"%string ->
  toLowerCase s <> "__proto__"%string ->
  exists c, mapCategory (JStr s) = Normal (JStr c) /\ c <> ""%string /\
    ((categoryMap !! toLowerCase s = Some (JStr c)
      /\ In c canonicalCategories)
     \/ (categoryMap !! toLowerCase s = None /\ c = toLowerCase s)).
Proof.
  intros Hs Hc Hp. unfold mapCategory. simpl.
  destruct (String.eqb_spec s ""); [contradiction|]. simpl.
  unfold get. destruct (categoryMap !! toLowerCase s) as [v|] eqn:Hv.
  - destruct (categoryMap_values _ _ Hv) as (c & -> & Hin).
    assert (Hne : c <> ""%string).
    { simpl in Hin. intuition (subst; discriminate). }
    exists c. unfold jsOr. simpl.
    destruct (String.eqb_spec c ""); [contradiction|]. simpl. auto.
  - rewrite objectPrototype_lower by assumption.
    exists (toLowerCase s). split; [reflexivity|].
    split; [apply toLowerCase_nonempty, Hs | right; auto].
Qed.

Lemma mapCategory_examples :
  mapCategory (JStr "Food Bank") = Normal (JStr "food") /\
  mapCategory (JStr "meal") = Normal (JStr "food") /\
  mapCategory (JStr "NUTRITION") = Normal (JStr "food") /\
  mapCategory (JStr "shelter") = Normal (JStr "housing") /\
  mapCategory (JStr "rental assistance") = Normal (JStr "housing") /\
  mapCategory (JStr "Childcare") = Normal (JStr "childcare") /\
  (exists out, fst (normalizeResource foodBankRecord halfDraws) = Normal out
               /\ out !! "category"%string = Some (JStr "food")).
Proof.
  repeat (split; [vm_compute; reflexivity|]).
  eexists. split; vm_compute; reflexivity.
Qed.

(** C7 at the category "constructor". The lower-cased string is not a key
    of the synonym table, yet the lookup finds the property every plain
    object inherits, and the category that comes out is the [Object]
    function, not the string "constructor"; the same for "__proto__". *)
Theorem mapCategory_inherited_name_not_a_string :
  categoryMap !! "constructor"%string = None /\
  mapCategory (JStr "constructor") = Normal (JBuiltin "Object") /\
  mapCategory (JStr "Constructor") = Normal (JBuiltin "Object") /\
  mapCategory (JStr "__proto__") = Normal (JBuiltin "Object.prototype") /\
  (forall c, mapCategory (JStr "constructor") <> Normal (JStr c)) /\
  (exists out,
     fst (normalizeResource constructorRecord halfDraws) = Normal out
     /\ out !! "category"%string = Some (JBuiltin "Object")).
Proof.
  split; [vm_compute; reflexivity|].
  split; [vm_compute; reflexivity|].
  split; [vm_compute; reflexivity|].
  split; [vm_compute; reflexivity|].
  split; [intros c H; vm_compute in H; discriminate|].
  eexists. split; vm_compute; reflexivity.
Qed.

Lemma normalizeResource_defaults (res : RawRecord) (g : Rng) :
  Forall (fun k => res !! k = None) sourceFields ->
  normalizeResource res g
  = (Normal (defaultRecord (g 0%nat)), fun n => g (S n)).
Proof.
  intros HF. unfold sourceFields in HF.
  repeat match goal with
  | H : Forall _ (_ :: _) |- _ =>
    apply List.Forall_cons_iff in H;
    let H1 := fresh "Hk" in destruct H as [H1 H]
  end.
  cbv beta zeta delta [normalizeResource get].
  repeat match goal with
  | H : res !! _ = None |- _ => rewrite H; clear H
  end.
  reflexivity.
Qed.

(** C8, as the code has it. [normalizeResource] returns a record exactly
    when the raw record is already in our format, or the value it passes to
    [mapCategory] and the value it passes to [extractZip] are each a string
    or falsy; on any other record it throws. A record with none of the
    fields it reads gives the defaults: a drawn id, the name
    'Unknown Resource', the category 'other', the hours
    'Contact for hours', empty strings for address, ZIP, phone, website and
    eligibility notes, no eligibility tag, and the language 'English'. *)
Theorem normalizeResource_returns_iff_string_sources (res : RawRecord)
  (g : Rng) :
  (returns (fst (normalizeResource res g)) = true <->
   canonical res = true
   \/ (stringOrFalsy (categorySource res) = true
       /\ stringOrFalsy (zipSource res) = true)) /\
  (Forall (fun k => res !! k = None) sourceFields ->
   normalizeResource res g
   = (Normal (defaultRecord (g 0%nat)), fun n => g (S n))).
Proof.
  split; [|apply normalizeResource_defaults].
  rewrite normalizeResource_returns.
  destruct (canonical res), (stringOrFalsy (categorySource res)),
    (stringOrFalsy (zipSource res)); simpl; intuition discriminate.
Qed.

(** C8, as stated, fails. A record whose category is the number 42, and a
    record whose ZIP is the number 94601, make [normalizeResource] throw a
    TypeError. *)
Lemma normalizeResource_throws_on_number :
  fst (normalizeResource numericCategoryRecord halfDraws)
  = Throw "TypeError: category.toLowerCase is not a function" /\
  fst (normalizeResource numericZipRecord halfDraws)
  = Throw "TypeError: text.match is not a function" /\
  returns (fst (normalizeResource numericCategoryRecord halfDraws)) = false.
Proof. repeat split; vm_compute; reflexivity. Qed.




(* ===================================================================== *)
(** * The catalog cache                                                   *)
(* ===================================================================== *)

Lemma mapNormalize_frame (l : list RawRecord) (w w' : World)
  (c : Completion (list RawRecord)) :
  mapNormalize l w = (c, w') ->
  resourceCache w' = resourceCache w /\ clock w' = clock w /\
  exists sfx, trace w' = trace w ++ sfx
              /\ existsb performsLoad sfx = false.
Proof.
  revert w w' c; induction l as [|r l IH]; intros w w' c; simpl.
  - intros H. injection H as <- <-.
    repeat split. exists []. rewrite app_nil_r. auto.
  - unfold callNormalize.
    destruct (normalizeResource r (random w)) as [[y|e] g'].
    + destruct (mapNormalize l _) as [[ys|e] w2] eqn:E;
        apply IH in E; simpl in E; destruct E as (Hc & Hk & sfx & Ht & Hs);
        intros H; injection H as <- <-; repeat split; try assumption;
        exists (Normalize :: sfx); rewrite Ht, <- app_assoc; simpl; auto.
    + intros H. injection H as <- <-. simpl. repeat split.
      exists [Normalize]. auto.
Qed.

Lemma loadFromJSON_frame (env : Env) (w w' : World) (l : list RawRecord) :
  loadFromJSON env w = (l, w') ->
  resourceCache w' = resourceCache w /\ clock w' = clock w /\
  exists sfx, trace w' = trace w ++ sfx /\ existsb performsLoad sfx = true.
Proof.
  unfold loadFromJSON. destruct (jsonFile env) as [rs|].
  - destruct (mapNormalize rs _) as [[ys|e] w2] eqn:E;
      apply mapNormalize_frame in E; simpl in E;
      destruct E as (Hc & Hk & sfx & Ht & Hs);
      intros H; injection H as <- <-; repeat split; try assumption;
      exists (ReadJSONFile :: sfx); rewrite Ht, <- app_assoc; simpl; auto.
  - intros H. injection H as <- <-. simpl. repeat split.
    exists [ReadJSONFile]. auto.
Qed.

Lemma fetchFromAPI_frame (env : Env) (w w' : World)
  (c : Completion (list RawRecord)) :
  fetchFromAPI env w = (c, w') ->
  resourceCache w' = resourceCache w /\ clock w' = clock w /\
  exists sfx, trace w' = trace w ++ sfx /\ existsb performsLoad sfx = true.
Proof.
  unfold fetchFromAPI. destruct (apiResponse env) as [rs|].
  - intros E. apply mapNormalize_frame in E. simpl in E.
    destruct E as (Hc & Hk & sfx & Ht & Hs). repeat split; try assumption.
    exists (FetchAPI :: sfx). rewrite Ht, <- app_assoc. simpl. auto.
  - intros H. injection H as <- <-. simpl. repeat split.
    exists [FetchAPI]. auto.
Qed.

Lemma updateCache_loaded (w0 w w' : World) (l d : list RawRecord)
  (sfx : list Effect) :
  resourceCache w = resourceCache w0 ->
  trace w = trace w0 ++ sfx -> existsb performsLoad sfx = true ->
  updateCache l w = (Normal d, w') -> loaded w0 d w'.
Proof.
  intros Hc Ht Hs. unfold updateCache, Date_now, setCache. simpl.
  intros H. injection H as <- <-. unfold loaded. simpl.
  rewrite Hc. repeat split; eauto.
Qed.

Lemma toLowerCase_json_api (s : string) :
  toLowerCase s = "api"%string -> s <> "json"%string.
Proof. intros H ->. discriminate. Qed.

Lemma loadFromSource_spec (env : Env) (dataSource : string) (w w' : World)
  (c : Completion (list RawRecord)) :
  loadFromSource env dataSource w = (c, w') ->
  match c with
  | Normal d => loaded w d w'
  | Throw _ =>
    dataSource <> "json"%string /\
    resourceCache w' = resourceCache w /\
    exists sfx, trace w' = trace w ++ sfx
  end.
Proof.
  unfold loadFromSource.
  destruct (String.eqb_spec (toLowerCase dataSource) "api") as [Hapi|Hapi].
  - apply toLowerCase_json_api in Hapi.
    assert (Hthrow : forall e,
      (Throw e : Completion (list RawRecord), w) = (c, w') ->
      match c with
      | Normal d => loaded w d w'
      | Throw _ => dataSource <> "json"%string /\
                   resourceCache w' = resourceCache w /\
                   exists sfx, trace w' = trace w ++ sfx
      end).
    { intros e H. injection H as <- <-. repeat split; auto.
      exists []. rewrite app_nil_r. reflexivity. }
    destruct (RESOURCE_API_URL env) as [url|]; [|apply Hthrow].
    destruct (String.eqb url ""); [apply Hthrow|].
    destruct (fetchFromAPI env w) as [[rs|e] w1] eqn:E;
      apply fetchFromAPI_frame in E; destruct E as (Hc & Hk & sfx & Ht & Hs).
    + destruct (String.eqb_spec dataSource "json"); [contradiction|].
      rewrite andb_true_r.
      destruct (length rs =? 0)%nat.
      * destruct (loadFromJSON env w1) as [l w2] eqn:E2.
        apply loadFromJSON_frame in E2.
        destruct E2 as (Hc2 & Hk2 & sfx2 & Ht2 & Hs2).
        intros H. destruct c as [d|e]; [|discriminate].
        eapply (updateCache_loaded w w2 w' l d (sfx ++ sfx2)); eauto.
        -- congruence.
        -- rewrite Ht2, Ht, app_assoc. reflexivity.
        -- rewrite existsb_app, Hs. reflexivity.
      * intros H. destruct c as [d|e]; [|discriminate].
        eapply updateCache_loaded; eauto.
    + intros H. injection H as <- <-. repeat split; eauto.
  - destruct (String.eqb_spec (toLowerCase dataSource) "database")
      as [Hdb|Hdb].
    + unfold fetchFromDatabase. cbn [length Nat.eqb andb].
      destruct (String.eqb_spec dataSource "json") as [->|Hj];
        [discriminate Hdb|].
      cbn [negb].
      destruct (loadFromJSON env w) as [l w2] eqn:E2.
      apply loadFromJSON_frame in E2.
      destruct E2 as (Hc2 & Hk2 & sfx2 & Ht2 & Hs2).
      intros H. destruct c as [d|e]; [|discriminate].
      eapply updateCache_loaded; eauto.
    + destruct (loadFromJSON env w) as [l w1] eqn:E1.
      apply loadFromJSON_frame in E1.
      destruct E1 as (Hc1 & Hk1 & sfx1 & Ht1 & Hs1).
      destruct ((length l =? 0)%nat && negb (dataSource =? "json")%string).
      * destruct (loadFromJSON env w1) as [l2 w2] eqn:E2.
        apply loadFromJSON_frame in E2.
        destruct E2 as (Hc2 & Hk2 & sfx2 & Ht2 & Hs2).
        intros H. destruct c as [d|e]; [|discriminate].
        eapply (updateCache_loaded w w2 w' l2 d (sfx1 ++ sfx2)); eauto.
        -- congruence.
        -- rewrite Ht2, Ht1, app_assoc. reflexivity.
        -- rewrite existsb_app, Hs1. reflexivity.
      * intros H. destruct c as [d|e]; [|discriminate].
        eapply updateCache_loaded; eauto.
Qed.

Lemma reload_loaded (env : Env) (w : World) :
  exists d w', reload env w = (Normal d, w') /\ loaded w d w'.
Proof.
  unfold reload.
  set (ds := match RESOURCE_DATA_SOURCE env with
             | Some s => if String.eqb s "" then "json"%string else s
             | None => "json"%string
             end).
  destruct (loadFromSource env ds w) as [[d|e] w1] eqn:E;
    apply loadFromSource_spec in E.
  - exists d, w1. auto.
  - destruct E as (Hds & Hc & sfx & Ht).
    destruct (String.eqb_spec ds "json"); [contradiction|]. cbn [negb].
    destruct (loadFromJSON env w1) as [l w2] eqn:E2.
    apply loadFromJSON_frame in E2.
    destruct E2 as (Hc2 & Hk2 & sfx2 & Ht2 & Hs2).
    destruct (updateCache l w2) as [c w'] eqn:E3.
    assert (Hn : c = Normal l).
    { unfold updateCache, Date_now in E3. injection E3 as <- _.
      reflexivity. }
    subst c. exists l, w'. split; [reflexivity|].
    eapply (updateCache_loaded w w2 w' l l (sfx ++ sfx2)); eauto.
    + congruence.
    + rewrite Ht2, Ht, app_assoc. reflexivity.
    + rewrite existsb_app, Hs2. apply orb_true_r.
Qed.


Lemma getAllResources_miss (env : Env) (w : World) :
  data (resourceCache w) = None -> getAllResources env w = reload env w.
Proof. intros H. unfold getAllResources. rewrite H. reflexivity. Qed.

(** A read always returns, and leaves what it returns in the cache. *)
Lemma getAllResources_caches (env : Env) (w : World) :
  exists d w' t,
    getAllResources env w = (Normal d, w') /\
    data (resourceCache w') = Some d /\
    timestamp (resourceCache w') = Some t /\
    ttl (resourceCache w') = ttl (resourceCache w).
Proof.
  assert (Hreload : forall w0, resourceCache w0 = resourceCache w ->
    exists d w' t, reload env w0 = (Normal d, w') /\
      data (resourceCache w') = Some d /\
      timestamp (resourceCache w') = Some t /\
      ttl (resourceCache w') = ttl (resourceCache w)).
  { intros w0 H0. destruct (reload_loaded env w0) as (d & w' & E & L).
    destruct L as (Hd & (t & Ht) & Httl & _).
    exists d, w', t. rewrite <- H0. auto. }
  unfold getAllResources.
  destruct (data (resourceCache w)) as [d|] eqn:Hd;
    [|apply Hreload; reflexivity].
  destruct (timestamp (resourceCache w)) as [t|] eqn:Ht;
    [|apply Hreload; reflexivity].
  destruct (negb (t =? 0)); [|apply Hreload; reflexivity].
  unfold Date_now. cbn [resourceCache].
  destruct (clock w 0%nat - t <? ttl (resourceCache w));
    [|apply Hreload; reflexivity].
  exists d, (snd (Date_now w)), t. auto.
Qed.



(* ===================================================================== *)
(** * extractZip                                                          *)
(* ===================================================================== *)

Lemma digits_split (n : nat) (l rest : list ascii) :
  digits n l = Some rest ->
  l = firstn n l ++ rest /\ length (firstn n l) = n
  /\ forallb isDigit (firstn n l) = true.
Proof.
  revert l; induction n as [|n IH]; intros l; simpl.
  - intros H. injection H as <-. auto.
  - destruct l as [|c l]; [discriminate|].
    destruct (isDigit c) eqn:Hc; [|discriminate].
    intros H. destruct (IH _ H) as (E & Hl & Hd).
    simpl. rewrite Hc, Hd, Hl. rewrite <- E. auto.
Qed.

Lemma zipPlus4At_zip5At (prevWord : bool) (l : list ascii) :
  zip5At prevWord l = None -> zipPlus4At prevWord l = None.
Proof.
  unfold zip5At, zipPlus4At. destruct prevWord; [reflexivity|].
  destruct (digits 5 l) as [[|c rest]|]; try reflexivity.
  destruct (Ascii.eqb_spec c "-") as [->|]; [|reflexivity].
  discriminate.
Qed.

Lemma searchFrom_zipPlus4At (prevWord : bool) (l : list ascii) :
  searchFrom zip5At prevWord l = None ->
  searchFrom zipPlus4At prevWord l = None.
Proof.
  revert prevWord; induction l as [|c l IH]; intros prevWord; simpl.
  - destruct (zip5At prevWord []) eqn:E; [discriminate|].
    rewrite (zipPlus4At_zip5At _ _ E). reflexivity.
  - destruct (zip5At prevWord (c :: l)) eqn:E; [discriminate|].
    rewrite (zipPlus4At_zip5At _ _ E). apply IH.
Qed.

Lemma searchFrom_zip5At_found (prevWord : bool) (l m : list ascii) :
  searchFrom zip5At prevWord l = Some m ->
  length m = 5%nat /\ forallb isDigit m = true
  /\ exists pre post, l = pre ++ m ++ post.
Proof.
  revert prevWord; induction l as [|c l IH]; intros prevWord; simpl.
  - unfold zip5At. destruct prevWord; discriminate.
  - destruct (zip5At prevWord (c :: l)) as [m'|] eqn:E.
    + intros H. injection H as <-. unfold zip5At in E.
      destruct prevWord; [discriminate|].
      destruct (digits 5 (c :: l)) as [rest|] eqn:D; [|discriminate].
      destruct (wordEnds rest); [|discriminate].
      injection E as <-. destruct (digits_split _ _ _ D) as (El & Hl & Hd).
      repeat split; try assumption. exists [], rest. exact El.
    + intros H. destruct (IH _ H) as (Hl & Hd & pre & post & El).
      repeat split; try assumption. exists (c :: pre), post.
      rewrite El. reflexivity.
Qed.

Lemma extractZip_first_pattern (text : string) :
  (String_match zip5At text = None -> String_match zipPlus4At text = None)
  /\ extractZip (JStr text)
     = Normal (match String_match zip5At text with
               | Some zipMatch => zipMatch
               | None => ""%string
               end).
Proof.
  assert (H : String_match zip5At text = None ->
              String_match zipPlus4At text = None).
  { unfold String_match.
    destruct (searchFrom zip5At false _) eqn:E; [discriminate|].
    rewrite (searchFrom_zipPlus4At _ _ E). reflexivity. }
  split; [exact H|].
  unfold extractZip. simpl.
  destruct (String.eqb_spec text "") as [->|Hne]; [reflexivity|]. simpl.
  destruct (String_match zip5At text); [reflexivity|].
  rewrite H by reflexivity. reflexivity.
Qed.

(** X1. The second pattern of [extractZip], the ZIP+4 one, never decides:
    a text in which the five-digit pattern finds nothing has no ZIP+4 match
    either, so [extractZip] of a string is the first match of the
    five-digit pattern, or the empty string. *)
Theorem extractZip_zip_plus4_branch_dead (text : string) :
  (String_match zip5At text = None -> String_match zipPlus4At text = None)
  /\ extractZip (JStr text)
     = Normal (match String_match zip5At text with
               | Some zipMatch => zipMatch
               | None => ""%string
               end).
Proof. exact (extractZip_first_pattern text). Qed.

Lemma extractZip_shape (text : string) :
  exists z,
    extractZip (JStr text) = Normal z /\
    (z = ""%string
     \/ (fiveDigits z = true
         /\ exists pre post,
              list_ascii_of_string text
              = pre ++ list_ascii_of_string z ++ post)).
Proof.
  destruct (extractZip_first_pattern text) as [_ ->].
  unfold String_match.
  destruct (searchFrom zip5At false (list_ascii_of_string text))
    as [m|] eqn:E; simpl.
  - exists (string_of_list_ascii m). split; [reflexivity|]. right.
    destruct (searchFrom_zip5At_found _ _ _ E) as (Hl & Hd & pre & post & El).
    unfold fiveDigits. rewrite list_ascii_of_string_of_list_ascii.
    rewrite Hl, Hd. split; [reflexivity|]. exists pre, post. exact El.
  - exists ""%string. auto.
Qed.

(** X2. On a string, [extractZip] returns the empty string or five digits
    that stand in the text. *)
Theorem extractZip_empty_or_five_digits (text : string) :
  exists z,
    extractZip (JStr text) = Normal z /\
    (z = ""%string
     \/ (fiveDigits z = true
         /\ exists pre post,
              list_ascii_of_string text
              = pre ++ list_ascii_of_string z ++ post)).
Proof. exact (extractZip_shape text). Qed.

Lemma extractZip_five_digits (z : string) :
  fiveDigits z = true -> extractZip (JStr z) = Normal z.
Proof.
  unfold fiveDigits. intros H. apply andb_prop in H. destruct H as [Hl Hd].
  apply Nat.eqb_eq in Hl.
  destruct z as [|c1 [|c2 [|c3 [|c4 [|c5 [|c6 z]]]]]]; try discriminate.
  simpl in Hd.
  repeat (apply andb_prop in Hd; let H := fresh "Hc" in
          destruct Hd as [H Hd]).
  unfold extractZip, String_match. simpl.
  unfold zip5At. simpl. rewrite Hc, Hc0, Hc1, Hc2, Hc3. reflexivity.
Qed.

(** X3. [extractZip] keeps a five-digit string as it is, and so is
    idempotent on strings: extracting from what it returned returns the
    same. *)
Theorem extractZip_idempotent (text : string) :
  (fiveDigits text = true -> extractZip (JStr text) = Normal text) /\
  exists z, extractZip (JStr text) = Normal z
            /\ extractZip (JStr z) = Normal z.
Proof.
  split; [apply extractZip_five_digits|].
  destruct (extractZip_shape text) as (z & E & Hz).
  exists z. split; [exact E|].
  destruct Hz as [->|Hz]; [reflexivity|].
  apply extractZip_five_digits, Hz.
Qed.

(* ===================================================================== *)
(** * mapCategory and normalizeResource, further                          *)
(* ===================================================================== *)

Lemma lowerUnit_idempotent (c : ascii) : lowerUnit (lowerUnit c) = lowerUnit c.
Proof. destruct c as [[] [] [] [] [] [] [] []]; reflexivity. Qed.

Lemma toLowerCase_idempotent (s : string) :
  toLowerCase (toLowerCase s) = toLowerCase s.
Proof.
  induction s as [|c s IH]; simpl; [reflexivity|].
  rewrite lowerUnit_idempotent, IH. reflexivity.
Qed.

Lemma mapCategory_canonical (c : string) :
  In c canonicalCategories -> mapCategory (JStr c) = Normal (JStr c).
Proof.
  simpl. intros [<-|[<-|[<-|[<-|[<-|[]]]]]]; vm_compute; reflexivity.
Qed.

Lemma mapCategory_fixed (s : string) :
  s <> ""%string ->
  toLowerCase s <> "constructor"%string ->
  toLowerCase s <> "__proto__"%string ->
  exists c, mapCategory (JStr s) = Normal (JStr c)
            /\ mapCategory (JStr c) = Normal (JStr c).
Proof.
  intros Hs Hc Hp.
  destruct (mapCategory_string s Hs Hc Hp) as (c & E & Hne & Hcase).
  exists c. split; [exact E|].
  destruct Hcase as [[_ Hin]|[Hnone ->]].
  - apply mapCategory_canonical, Hin.
  - unfold mapCategory. simpl.
    destruct (String.eqb_spec (toLowerCase s) ""); [contradiction|]. simpl.
    rewrite toLowerCase_idempotent. unfold get. rewrite Hnone.
    rewrite objectPrototype_lower by assumption. reflexivity.
Qed.

(** X4. [mapCategory] is idempotent on category strings: what it returns
    for a non-empty string (other than the two lower-case names a plain
    object inherits) it returns again when given its own result; the five
    categories of the catalog are fixed points. *)
Theorem mapCategory_idempotent (s : string)
  (Hs : s <> ""%string)
  (Hc : toLowerCase s <> "constructor"%string)
  (Hp : toLowerCase s <> "__proto__"%string) :
  (exists c, mapCategory (JStr s) = Normal (JStr c)
             /\ mapCategory (JStr c) = Normal (JStr c)) /\
  (forall c, In c canonicalCategories ->
             mapCategory (JStr c) = Normal (JStr c)).
Proof.
  split; [apply mapCategory_fixed; assumption | apply mapCategory_canonical].
Qed.

Lemma mapCategory_idempotent_witness :
  exists c, mapCategory (JStr "Rental Assistance") = Normal (JStr c)
            /\ mapCategory (JStr c) = Normal (JStr c).
Proof.
  apply (mapCategory_idempotent "Rental Assistance"); discriminate.
Defined.

(** X5. For every non-empty category string whose lower case is neither
    "constructor" nor "__proto__", [mapCategory] returns a non-empty
    string: the category the synonym table gives for the lower-cased
    string, one of the five of the catalog, or, when the table has no such
    key, the lower-cased string itself. *)
Theorem mapCategory_table_or_lower_case (s : string)
  (Hs : s <> ""%string)
  (Hc : toLowerCase s <> "constructor"%string)
  (Hp : toLowerCase s <> "__proto__"%string) :
  exists c, mapCategory (JStr s) = Normal (JStr c) /\ c <> ""%string /\
    ((categoryMap !! toLowerCase s = Some (JStr c)
      /\ In c canonicalCategories)
     \/ (categoryMap !! toLowerCase s = None /\ c = toLowerCase s)).
Proof. exact (mapCategory_string s Hs Hc Hp). Qed.

Lemma mapCategory_table_or_lower_case_witness :
  exists c, mapCategory (JStr "Job Training") = Normal (JStr c)
    /\ c <> ""%string /\
    ((categoryMap !! toLowerCase "Job Training" = Some (JStr c)
      /\ In c canonicalCategories)
     \/ (categoryMap !! toLowerCase "Job Training" = None
         /\ c = toLowerCase "Job Training")).
Proof.
  apply (mapCategory_table_or_lower_case "Job Training"); discriminate.
Defined.

Lemma extractZip_normal_shape (v : JSValue) (z : string) :
  extractZip v = Normal z -> z = ""%string \/ fiveDigits z = true.
Proof.
  destruct v as [| |b|q|s|l|m|w]; unfold extractZip at 1;
    try (simpl; intros H; injection H as <-; left; reflexivity).
  - destruct b; simpl; [discriminate|].
    intros H; injection H as <-; left; reflexivity.
  - simpl. destruct (Qeq_bool q 0); simpl; [|discriminate].
    intros H; injection H as <-; left; reflexivity.
  - fold (extractZip (JStr s)).
    destruct (extractZip_shape s) as (z' & -> & Hz). intros H.
    injection H as <-. destruct Hz as [->|[Hz _]]; auto.
  - simpl. discriminate.
  - simpl. discriminate.
  - simpl. discriminate.
Qed.

Lemma canonicalFields_dom (vs : list JSValue) (k : string) :
  length vs = length canonicalFields ->
  is_Some ((list_to_map (zip canonicalFields vs) : RawRecord) !! k)
  <-> In k canonicalFields.
Proof.
  intros Hl. rewrite <- elem_of_dom, dom_list_to_map_L, elem_of_list_to_set.
  rewrite fst_zip by (rewrite Hl; reflexivity).
  apply list_elem_of_In.
Qed.

(** The record [normalizeResource] builds from a record not in our
    format. *)
Lemma normalizeResource_built (res out : RawRecord) (g g' : Rng) :
  canonical res = false ->
  normalizeResource res g = (Normal out, g') ->
  (forall k, is_Some (out !! k) <-> In k canonicalFields) /\
  (exists z, extractZip (zipSource res) = Normal z
             /\ out !! "zip"%string = Some (JStr z)) /\
  out !! "id"%string
  = Some (if truthy (idSource res) then idSource res
          else JNum (g 0%nat)) /\
  g' = (if truthy (idSource res) then g else fun n => g (S n)).
Proof.
  unfold normalizeResource.
  fold (canonical res) (categorySource res) (zipSource res) (idSource res).
  intros ->.
  destruct (truthy (idSource res)); [|unfold Math_random];
    destruct (mapCategory (categorySource res)) as [c|e];
    try discriminate;
    destruct (extractZip (zipSource res)) as [z|e]; try discriminate;
    intros H; injection H as <- <-;
    (split; [intros k; apply (canonicalFields_dom
                                [_; _; _; _; _; _; _; _; _; _; _]);
             reflexivity|]);
    (split; [exists z; split; reflexivity|]);
    split; reflexivity.
Qed.

Lemma normalizeResource_normalizable (res : RawRecord) (g : Rng) :
  normalizable res = true ->
  exists out,
    normalizeResource res g = (Normal out, snd (normalizeResource res g)).
Proof.
  intros H. pose proof (normalizeResource_returns res g) as Hr.
  fold (normalizable res) in Hr. rewrite H in Hr.
  destruct (normalizeResource res g) as [[out|e] g']; [|discriminate].
  exists out. reflexivity.
Qed.

(** X6. The record [normalizeResource] builds from a raw record that is
    not already in our format (and whose category and ZIP sources are
    strings or falsy, so that it returns) has the eleven canonical
    properties and no other; its ZIP is a string, empty or of five digits,
    never null; its name and its category are truthy. *)
Theorem normalizeResource_builds_canonical_shape (res : RawRecord) (g : Rng)
  (Hraw : canonical res = false)
  (Hok : normalizable res = true) :
  exists out,
    fst (normalizeResource res g) = Normal out /\
    (forall k, is_Some (out !! k) <-> In k canonicalFields) /\
    (exists z, out !! "zip"%string = Some (JStr z)
               /\ (z = ""%string \/ fiveDigits z = true)) /\
    truthy (get out "name") = true /\
    truthy (get out "category") = true.
Proof.
  destruct (normalizeResource_normalizable res g Hok) as (out & E).
  exists out. rewrite E. split; [reflexivity|].
  destruct (normalizeResource_built _ _ _ _ Hraw E)
    as (Hdom & (z & Hz & Hzip) & _ & _).
  destruct (normalizeResource_fields _ _ _ _ Hraw E)
    as ((c & Hm & Hcat) & Hname & _).
  split; [exact Hdom|].
  split; [exists z; split; [exact Hzip|];
          eapply extractZip_normal_shape; exact Hz|].
  unfold get. rewrite Hname, Hcat. split.
  - apply jsOr_truthy_r. reflexivity.
  - eapply mapCategory_truthy. exact Hm.
Qed.

Lemma normalizeResource_builds_canonical_shape_witness :
  exists out,
    fst (normalizeResource foodBankRecord halfDraws) = Normal out /\
    (forall k, is_Some (out !! k) <-> In k canonicalFields) /\
    (exists z, out !! "zip"%string = Some (JStr z)
               /\ (z = ""%string \/ fiveDigits z = true)) /\
    truthy (get out "name") = true /\
    truthy (get out "category") = true.
Proof.
  apply (normalizeResource_builds_canonical_shape foodBankRecord halfDraws);
    reflexivity.
Defined.

(** X7. The id of what [normalizeResource] returns is truthy exactly when
    the record was in our format, or had a truthy [id], [resource_id] or
    [organization_id], or the draw for it was not 0; and then normalizing
    the result again returns it unchanged, without a draw. *)
Theorem normalizeResource_idempotent_on_results (res out : RawRecord)
  (g g' : Rng)
  (Hout : normalizeResource res g = (Normal out, g')) :
  truthy (get out "id")
  = canonical res || truthy (idSource res) || negb (Qeq_bool (g 0%nat) 0)
  /\ (truthy (get out "id") = true ->
      forall g2, normalizeResource out g2 = (Normal out, g2)).
Proof.
  split.
  - destruct (canonical res) eqn:Hc.
    + rewrite normalizeResource_canonical in Hout by exact Hc.
      injection Hout as <- _. unfold canonical in Hc.
      destruct (truthy (get res "id")); [reflexivity | discriminate].
    + destruct (normalizeResource_built _ _ _ _ Hc Hout)
        as (_ & _ & Hid & _).
      unfold get at 1. rewrite Hid.
      destruct (truthy (idSource res)) eqn:Hs; simpl;
        [exact Hs | reflexivity].
  - intros Hid g2. apply normalizeResource_canonical.
    eapply normalizeResource_output_canonical; eassumption.
Qed.

Lemma normalizeResource_idempotent_on_results_witness :
  normalizeResource foodBankBuilt halfDraws
  = (Normal foodBankBuilt, halfDraws).
Proof.
  apply (proj2 (normalizeResource_idempotent_on_results foodBankRecord
                  foodBankBuilt halfDraws (fun n => halfDraws (S n))
                  eq_refl)).
  reflexivity.
Defined.

(* ===================================================================== *)
(** * The sources and the cache, further                                  *)
(* ===================================================================== *)

Lemma mapNormalize_all (l : list RawRecord) (w : World) :
  forallb normalizable l = true ->
  exists ys w',
    mapNormalize l w = (Normal ys, w') /\ length ys = length l /\
    trace w' = trace w ++ repeat Normalize (length l) /\
    resourceCache w' = resourceCache w /\ clock w' = clock w.
Proof.
  revert w; induction l as [|r l IH]; intros w; simpl.
  - intros _. exists [], w. rewrite app_nil_r. auto.
  - intros H. apply andb_prop in H. destruct H as [Hr Hl].
    unfold callNormalize.
    pose proof (normalizeResource_returns r (random w)) as Hret.
    fold (normalizable r) in Hret. rewrite Hr in Hret.
    destruct (normalizeResource r (random w)) as [[y|e] g']; [|discriminate].
    destruct (IH {| resourceCache := resourceCache w; random := g';
                    clock := clock w;
                    trace := trace w ++ [Normalize] |} Hl)
      as (ys & w' & E & Hlen & Ht & Hc & Hk).
    rewrite E. exists (y :: ys), w'. simpl in *.
    rewrite Hlen, Ht, <- app_assoc. auto.
Qed.

Lemma mapNormalize_some_fail (l : list RawRecord) (w : World) :
  forallb normalizable l = false ->
  exists e w', mapNormalize l w = (Throw e, w').
Proof.
  revert w; induction l as [|r l IH]; intros w; simpl; [discriminate|].
  unfold callNormalize.
  pose proof (normalizeResource_returns r (random w)) as Hret.
  fold (normalizable r) in Hret.
  destruct (normalizeResource r (random w)) as [[y|e] g']; simpl in Hret.
  - rewrite <- Hret. simpl. intros Hl.
    destruct (IH {| resourceCache := resourceCache w; random := g';
                    clock := clock w;
                    trace := trace w ++ [Normalize] |} Hl)
      as (e & w' & E).
    rewrite E. eauto.
  - intros _. eauto.
Qed.

(** X8. [loadFromJSON] is all or nothing. When the file cannot be read as
    an array it returns []. When every record of the file is one
    [normalizeResource] returns on, it returns one resource per record.
    When a single record is not (a numeric category or ZIP), it returns []:
    the whole catalog is dropped, not the one record. *)
Theorem loadFromJSON_all_or_nothing (env : Env) (w : World) :
  (jsonFile env = None -> fst (loadFromJSON env w) = []) /\
  (forall records, jsonFile env = Some records ->
     (forallb normalizable records = true ->
      length (fst (loadFromJSON env w)) = length records) /\
     (forallb normalizable records = false ->
      fst (loadFromJSON env w) = [])).
Proof.
  unfold loadFromJSON. split.
  - intros ->. reflexivity.
  - intros records ->. split; intros H.
    + destruct (mapNormalize_all records (emit ReadJSONFile w) H)
        as (ys & w' & E & Hlen & _).
      rewrite E. exact Hlen.
    + destruct (mapNormalize_some_fail records (emit ReadJSONFile w) H)
        as (e & w' & E).
      rewrite E. reflexivity.
Qed.

(** X9. [getAllResources], [refreshResources] and [getResourceCount]
    never throw, whatever the configuration and the answers of the
    sources: each returns, the cache then holds the list returned (or
    counted) under a timestamp. *)
Theorem catalog_reads_never_throw (env : Env) (w : World) :
  (exists d w', getAllResources env w = (Normal d, w')
                /\ data (resourceCache w') = Some d
                /\ is_Some (timestamp (resourceCache w'))) /\
  (exists d w', refreshResources env w = (Normal d, w')
                /\ data (resourceCache w') = Some d
                /\ is_Some (timestamp (resourceCache w'))) /\
  (exists d w', getResourceCount env w = (Normal (length d), w')
                /\ data (resourceCache w') = Some d).
Proof.
  assert (H : forall w0, exists d w',
    getAllResources env w0 = (Normal d, w')
    /\ data (resourceCache w') = Some d
    /\ is_Some (timestamp (resourceCache w'))).
  { intros w0.
    destruct (getAllResources_caches env w0) as (d & w' & t & E & Hd & Ht & _).
    exists d, w'. rewrite Ht. eauto. }
  split; [apply H|]. split; [apply H|].
  destruct (H w) as (d & w' & E & Hd & _).
  exists d, w'. unfold getResourceCount. rewrite E. auto.
Qed.

Lemma toLowerCase_not_json (s : string) :
  toLowerCase s = "api"%string \/ toLowerCase s = "database"%string ->
  s <> "json"%string.
Proof. intros [H|H] ->; discriminate. Qed.

Lemma reload_unfold (env : Env) (w : World) :
  reload env w
  = match loadFromSource env (dataSourceOf env) w with
    | (Normal resources, w1) => (Normal resources, w1)
    | (Throw e, w1) =>
      if negb (String.eqb (dataSourceOf env) "json") then
        let (resources, w2) := loadFromJSON env w1 in
        updateCache resources w2
      else (Throw e, w1)
    end.
Proof. reflexivity. Qed.

Lemma updateCache_normal (l : list RawRecord) (w : World) :
  exists w', updateCache l w = (Normal l, w').
Proof. unfold updateCache, Date_now. eauto. Qed.

(** X10. With an empty cache and a source other than the file, a primary
    source that gives nothing is answered from the static file, without an
    error for the caller: the database (a placeholder), a remote catalog
    without URL, a remote catalog whose request fails or whose list is
    empty. The result and the state are those of [loadFromJSON] followed by
    the update of the cache. *)
Theorem getAllResources_falls_back_to_static_file (env : Env) (w : World)
  (Hcold : data (resourceCache w) = None) :
  (toLowerCase (dataSourceOf env) = "database"%string
   \/ (toLowerCase (dataSourceOf env) = "api"%string
       /\ (RESOURCE_API_URL env = None
           \/ RESOURCE_API_URL env = Some ""%string)) ->
   getAllResources env w
   = let (l, w') := loadFromJSON env w in updateCache l w') /\
  (toLowerCase (dataSourceOf env) = "api"%string ->
   (exists url, RESOURCE_API_URL env = Some url /\ url <> ""%string) ->
   apiResponse env = None \/ apiResponse env = Some [] ->
   getAllResources env w
   = let (l, w') := loadFromJSON env (emit FetchAPI w) in updateCache l w').
Proof.
  rewrite (getAllResources_miss env w Hcold), reload_unfold.
  unfold loadFromSource. split.
  - intros H.
    assert (Hj : dataSourceOf env <> "json"%string).
    { apply toLowerCase_not_json. tauto. }
    destruct (String.eqb_spec (dataSourceOf env) "json"); [contradiction|].
    destruct H as [Hdb|[Hapi Hurl]].
    + rewrite Hdb. cbn [String.eqb Ascii.eqb Bool.eqb andb].
      unfold fetchFromDatabase. cbn [length Nat.eqb andb negb].
      destruct (loadFromJSON env w) as [l w'].
      destruct (updateCache_normal l w') as (w2 & ->). reflexivity.
    + rewrite Hapi. cbn [String.eqb Ascii.eqb Bool.eqb andb negb].
      destruct Hurl as [->| ->]; cbn [String.eqb]; reflexivity.
  - intros Hapi (url & Hurl & Hne) Hresp.
    assert (Hj : dataSourceOf env <> "json"%string).
    { apply toLowerCase_not_json. tauto. }
    destruct (String.eqb_spec (dataSourceOf env) "json"); [contradiction|].
    rewrite Hapi, Hurl. cbn [String.eqb Ascii.eqb Bool.eqb andb negb].
    destruct (String.eqb_spec url ""); [contradiction|].
    unfold fetchFromAPI.
    destruct Hresp as [-> | ->]; cbn [mapNormalize length Nat.eqb andb].
    + reflexivity.
    + destruct (loadFromJSON env (emit FetchAPI w)) as [l w'].
      destruct (updateCache_normal l w') as (w2 & ->). reflexivity.
Qed.

Lemma getAllResources_falls_back_to_static_file_witness :
  getAllResources databaseEnv sampleWorld
  = let (l, w') := loadFromJSON databaseEnv sampleWorld in updateCache l w'.
Proof.
  apply (getAllResources_falls_back_to_static_file databaseEnv sampleWorld);
    [reflexivity | left; reflexivity].
Defined.

(** X11. With an empty cache, a remote catalog that is configured and
    answers with a non-empty list of records [normalizeResource] returns
    on is the catalog: one resource per record, cached, after one request
    and one normalization per record, and the static file is not read. *)
Theorem getAllResources_remote_catalog_used (env : Env) (w : World)
  (url : string) (records : list RawRecord)
  (Hcold : data (resourceCache w) = None)
  (Hapi : toLowerCase (dataSourceOf env) = "api"%string)
  (Hurl : RESOURCE_API_URL env = Some url) (Hne : url <> ""%string)
  (Hresp : apiResponse env = Some records) (Hsome : records <> [])
  (Hok : forallb normalizable records = true) :
  exists d w',
    getAllResources env w = (Normal d, w') /\
    length d = length records /\
    data (resourceCache w') = Some d /\
    trace w' = trace w ++ FetchAPI :: repeat Normalize (length records).
Proof.
  rewrite (getAllResources_miss env w Hcold), reload_unfold.
  unfold loadFromSource.
  rewrite Hapi, Hurl. cbn [String.eqb Ascii.eqb Bool.eqb andb negb].
  destruct (String.eqb_spec url ""); [contradiction|].
  unfold fetchFromAPI. rewrite Hresp.
  destruct (mapNormalize_all records (emit FetchAPI w) Hok)
    as (ys & w1 & E & Hlen & Ht & Hc & Hk).
  rewrite E.
  destruct ys as [|y ys];
    [destruct records; [contradiction | discriminate]|].
  cbn [length Nat.eqb andb].
  exists (y :: ys). unfold updateCache, Date_now, setCache. cbn.
  eexists. split; [reflexivity|]. cbn.
  rewrite Ht. cbn. rewrite <- app_assoc. auto.
Qed.

Lemma getAllResources_remote_catalog_used_witness :
  exists d w',
    getAllResources apiEnv sampleWorld = (Normal d, w') /\
    length d = 1%nat /\
    data (resourceCache w') = Some d /\
    trace w' = [FetchAPI; Normalize].
Proof.
  apply (getAllResources_remote_catalog_used apiEnv sampleWorld
           "https://catalog.example/resources" [foodBankRecord]);
    try reflexivity; discriminate.
Defined.

(** X12. A read that finds a snapshot whose stamp is an hour old or older
    (the age is compared with [<], so at exactly the TTL too) does not use
    it: it loads again from a source and caches what it loaded. *)
Theorem getAllResources_reloads_after_expiry (env : Env) (w : World)
  (d : list RawRecord) (t : Z)
  (Hd : data (resourceCache w) = Some d)
  (Ht : timestamp (resourceCache w) = Some t)
  (Hnz : t <> 0)
  (Hexpired : ttl (resourceCache w) <= clock w 0%nat - t) :
  getAllResources env w = reload env (snd (Date_now w)) /\
  exists d' w' sfx,
    getAllResources env w = (Normal d', w') /\
    trace w' = trace w ++ sfx /\ existsb performsLoad sfx = true /\
    data (resourceCache w') = Some d'.
Proof.
  assert (E : getAllResources env w = reload env (snd (Date_now w))).
  { unfold getAllResources. rewrite Hd, Ht.
    destruct (Z.eqb_spec t 0); [contradiction|]. cbn [negb].
    unfold Date_now. cbn [resourceCache snd].
    destruct (Z.ltb_spec (clock w 0%nat - t) (ttl (resourceCache w)));
      [lia | reflexivity]. }
  split; [exact E|]. rewrite E.
  destruct (reload_loaded env (snd (Date_now w))) as (d' & w' & E' & L).
  destruct L as (Hd' & _ & _ & sfx & Htr & Hs).
  exists d', w', sfx. auto.
Qed.

Lemma getAllResources_reloads_after_expiry_witness :
  exists d' w' sfx,
    getAllResources sampleEnv staleWorld = (Normal d', w') /\
    trace w' = trace staleWorld ++ sfx /\
    existsb performsLoad sfx = true /\
    data (resourceCache w') = Some d'.
Proof.
  apply (getAllResources_reloads_after_expiry sampleEnv staleWorld
           [canonicalRecord] 1000); try reflexivity; [discriminate|].
  vm_compute. discriminate.
Defined.

Lemma loadFromJSON_trace (env : Env) (w : World) :
  exists sfx,
    trace (snd (loadFromJSON env w)) = trace w ++ ReadJSONFile :: sfx
    /\ existsb performsLoad sfx = false.
Proof.
  unfold loadFromJSON. destruct (jsonFile env) as [rs|].
  - destruct (mapNormalize rs (emit ReadJSONFile w)) as [[ys|e] w2] eqn:E;
      apply mapNormalize_frame in E;
      destruct E as (_ & _ & sfx & Ht & Hs);
      exists sfx; cbn [snd]; rewrite Ht; cbn [emit trace];
      rewrite <- app_assoc; auto.
  - exists []. cbn. auto.
Qed.

(** X13. With an empty cache and the file as source (the default when no
    source is configured), a read is [loadFromJSON] followed by the update
    of the cache: the file is read once, the remote catalog is not
    requested, and an unreadable file gives the empty catalog, not an
    error. *)
Theorem getAllResources_default_source_reads_file_once (env : Env)
  (w : World)
  (Hcold : data (resourceCache w) = None)
  (Hjson : dataSourceOf env = "json"%string) :
  getAllResources env w
  = (let (l, w') := loadFromJSON env w in updateCache l w') /\
  (exists sfx,
     trace (snd (getAllResources env w)) = trace w ++ ReadJSONFile :: sfx
     /\ existsb performsLoad sfx = false) /\
  (jsonFile env = None -> fst (getAllResources env w) = Normal []).
Proof.
  assert (E : getAllResources env w
              = (let (l, w') := loadFromJSON env w in updateCache l w')).
  { rewrite (getAllResources_miss env w Hcold), reload_unfold.
    unfold loadFromSource. rewrite Hjson.
    change (toLowerCase "json" =? "api")%string with false.
    change (toLowerCase "json" =? "database")%string with false.
    change (negb ("json" =? "json")%string) with false.
    cbv iota. destruct (loadFromJSON env w) as [l w'].
    rewrite andb_false_r.
    destruct (updateCache_normal l w') as (w2 & ->). reflexivity. }
  split; [exact E|]. rewrite E. split.
  - destruct (loadFromJSON_trace env w) as (sfx & Ht & Hs).
    exists sfx. destruct (loadFromJSON env w) as [l w'].
    unfold updateCache, Date_now, setCache. cbn in *. auto.
  - intros Hnone. unfold loadFromJSON. rewrite Hnone. reflexivity.
Qed.

Lemma getAllResources_default_source_reads_file_once_witness :
  getAllResources sampleEnv sampleWorld
  = (let (l, w') := loadFromJSON sampleEnv sampleWorld in
     updateCache l w').
Proof.
  exact (proj1 (getAllResources_default_source_reads_file_once sampleEnv
                  sampleWorld eq_refl eq_refl)).
Defined.

(* ===================================================================== *)
(** * The match engine, further                                           *)
(* ===================================================================== *)

Lemma mapRng_length {A B : Type} (f : A -> Rng -> B * Rng) (l : list A)
  (g : Rng) : length (fst (mapRng f l g)) = length l.
Proof.
  revert g; induction l as [|x l IH]; intros g; simpl; [reflexivity|].
  destruct (f x g) as [y g1]. specialize (IH g1).
  destruct (mapRng f l g1) as [ys g2]. simpl in *. congruence.
Qed.

Lemma rankAll_length (lc : string -> string -> Z) (z : string)
  (working : list Resource.t) (g : Rng) :
  length (rankAll lc z working g) = length working.
Proof.
  unfold rankAll.
  rewrite (Permutation_length (Array_sort_Permutation _ _)).
  apply mapRng_length.
Qed.

Lemma rankAll_resources (lc : string -> string -> Z) (z : string)
  (working : list Resource.t) (g : Rng) :
  Permutation (map resource (rankAll lc z working g)) working.
Proof.
  unfold rankAll.
  rewrite <- (mapRng_withDistance_resources z working g) at 2.
  apply Permutation_map, Array_sort_Permutation.
Qed.

Lemma filter_rest_Permutation {A : Type} (f : A -> bool) (l : list A) :
  Permutation (List.filter f l ++ List.filter (fun x => negb (f x)) l) l.
Proof.
  induction l as [|x l IH]; simpl; [constructor|].
  destruct (f x); simpl.
  - constructor. exact IH.
  - eapply Permutation_trans; [apply Permutation_sym, Permutation_middle|].
    constructor. exact IH.
Qed.

Lemma languageStage_rest (matches : list Resource.t) (pref : string) :
  exists rest, Permutation (languageStage matches pref ++ rest) matches.
Proof.
  unfold languageStage, languageSubset.
  destruct (0 <? length _)%nat.
  - eexists. apply filter_rest_Permutation.
  - exists []. rewrite app_nil_r. apply Permutation_refl.
Qed.

(** X14. The result has exactly min(5, n) entries, n being the size of the
    working set after the language stage; it is empty exactly when no
    resource passes the category and the eligibility filters, so a
    language that no resource lists never empties it. *)
Theorem matchResources_result_size (localeCompare : string -> string -> Z)
  (resources : list Resource.t) (userInfo : UserInfo.t) (g : Rng) :
  let out := fst (matchResources localeCompare resources userInfo g) in
  length out
  = Nat.min 5 (length (languageStage (eligibilityStage resources userInfo)
                                     (preferredOf userInfo))) /\
  (out = [] <-> eligibilityStage resources userInfo = []).
Proof.
  intros out.
  assert (Hlen : length out
    = Nat.min 5 (length (languageStage (eligibilityStage resources userInfo)
                                       (preferredOf userInfo)))).
  { subst out. rewrite matchResources_stages. unfold slice0.
    rewrite length_firstn, rankAll_length. reflexivity. }
  split; [exact Hlen|].
  split.
  - intros H. rewrite H in Hlen. simpl in Hlen.
    destruct (languageStage _ _) as [|r l] eqn:E; [|discriminate].
    destruct (languageSubset (eligibilityStage resources userInfo)
                (preferredOf userInfo)) as [|r l] eqn:Es.
    + rewrite languageStage_empty in E; assumption.
    + rewrite languageStage_nonempty in E by congruence. congruence.
  - intros H. subst out. rewrite matchResources_stages, H. reflexivity.
Qed.

(** X15. The resources of the result are resources of the input, each at
    most as often as the input has it: together with some rest they make
    up the input list. A catalog without repeated resources gives a result
    without repeated resources. *)
Theorem matchResources_draws_from_catalog
  (localeCompare : string -> string -> Z)
  (resources : list Resource.t) (userInfo : UserInfo.t) (g : Rng) :
  let out := fst (matchResources localeCompare resources userInfo g) in
  (exists rest, Permutation (map resource out ++ rest) resources) /\
  (List.NoDup resources -> List.NoDup (map resource out)).
Proof.
  intros out.
  assert (H : exists rest, Permutation (map resource out ++ rest) resources).
  { subst out. rewrite matchResources_stages. unfold slice0.
    set (working := languageStage _ _).
    set (ranked := rankAll localeCompare (UserInfo.zip userInfo) working g).
    destruct (languageStage_rest (eligibilityStage resources userInfo)
                (preferredOf userInfo)) as (rest3 & P3).
    fold working in P3.
    pose proof (filter_rest_Permutation
                  (fun res => matchesEligibility res userInfo)
                  (categoryStage resources userInfo)) as P2.
    fold (eligibilityStage resources userInfo) in P2.
    pose proof (filter_rest_Permutation
                  (fun res => String.eqb (Resource.category res)
                                         (UserInfo.primaryNeed userInfo))
                  resources) as P1.
    fold (categoryStage resources userInfo) in P1.
    pose proof (rankAll_resources localeCompare (UserInfo.zip userInfo)
                  working g) as P4.
    fold ranked in P4.
    rewrite <- (firstn_skipn 5 ranked), map_app in P4.
    eexists (map resource (skipn 5 ranked) ++ rest3 ++ _ ++ _).
    rewrite app_assoc.
    eapply Permutation_trans; [|exact P1].
    rewrite (app_assoc rest3).
    rewrite (app_assoc (_ ++ _)).
    apply Permutation_app_tail.
    eapply Permutation_trans; [|exact P2].
    rewrite app_assoc. apply Permutation_app_tail.
    eapply Permutation_trans; [|exact P3].
    apply Permutation_app_tail. exact P4. }
  split; [exact H|].
  intros Hnd. destruct H as (rest & P).
  apply Permutation_sym in P.
  pose proof (Permutation_NoDup P Hnd) as Hnd'.
  apply NoDup_app_remove_r in Hnd'. exact Hnd'.
Qed.

Lemma calculateDistance_zero_iff (zip1 zip2 : string) (g : Rng) :
  unitDraws g ->
  unitDraws (snd (calculateDistance zip1 zip2 g)) /\
  0 <= fst (calculateDistance zip1 zip2 g) /\
  (fst (calculateDistance zip1 zip2 g) = 0 <-> zip1 = zip2).
Proof.
  intros Hg. destruct (Hg 0%nat) as [H0 H1].
  pose proof (floor_draw_product_nonneg (g 0%nat) 5 H0 ltac:(lia)) as H5.
  pose proof (floor_draw_product_nonneg (g 0%nat) 10 H0 ltac:(lia)) as H10.
  change (inject_Z 5) with 5%Q in H5. change (inject_Z 10) with 10%Q in H10.
  assert (Hshift : unitDraws (fun n => g (S n))) by (intros n; apply Hg).
  unfold calculateDistance, Math_random.
  destruct (String.eqb_spec zip1 zip2) as [E|E].
  - simpl. split; [exact Hg|]. split; [lia|]. tauto.
  - destruct (String.eqb (substring0 3 zip1) (substring0 3 zip2));
      cbn [fst snd];
      (split; [exact Hshift|]); (split; [lia|]);
      (split; [intros; lia | intros; contradiction]).
Qed.

Lemma calculateDistance_range (zip1 zip2 : string) (g : Rng) :
  unitDraws g -> doubleDraws g ->
  doubleDraws (snd (calculateDistance zip1 zip2 g)) /\
  fst (calculateDistance zip1 zip2 g) <= 14.
Proof.
  intros Hg Hb. destruct (Hg 0%nat) as [H0 H1].
  destruct (floor_draw_times_5_10 (g 0%nat) (Hb 0%nat) H0 H1) as [H5 H10].
  assert (Hshift : doubleDraws (fun n => g (S n))) by (intros n; apply Hb).
  unfold calculateDistance, Math_random.
  destruct (String.eqb zip1 zip2).
  - simpl. split; [exact Hb | lia].
  - destruct (String.eqb (substring0 3 zip1) (substring0 3 zip2));
      cbn [fst snd]; (split; [exact Hshift | lia]).
Qed.

Lemma mapRng_withDistance_zero_iff (z : string) (l : list Resource.t)
  (g : Rng) :
  unitDraws g ->
  Forall (fun m => 0 <= distance m
                   /\ (distance m = 0 <-> Resource.zip (resource m) = z))
         (fst (mapRng (withDistance z) l g)).
Proof.
  revert g; induction l as [|x l IH]; intros g Hg; simpl; [constructor|].
  unfold withDistance at 1.
  pose proof (calculateDistance_zero_iff z (Resource.zip x) g Hg) as Hx.
  destruct (calculateDistance z (Resource.zip x) g) as [d g1].
  simpl in Hx. destruct Hx as (Hg1 & Hr & Hz).
  specialize (IH g1 Hg1).
  destruct (mapRng (withDistance z) l g1) as [ys g2]. simpl in *.
  constructor; [|exact IH]. simpl. split; [exact Hr|].
  rewrite Hz. split; congruence.
Qed.

Lemma mapRng_withDistance_range (z : string) (l : list Resource.t)
  (g : Rng) :
  unitDraws g -> doubleDraws g ->
  Forall (fun m => distance m <= 14) (fst (mapRng (withDistance z) l g)).
Proof.
  revert g; induction l as [|x l IH]; intros g Hg Hb; simpl; [constructor|].
  unfold withDistance at 1.
  pose proof (calculateDistance_range z (Resource.zip x) g Hg Hb) as Hx.
  pose proof (calculateDistance_zero_iff z (Resource.zip x) g Hg) as Hu.
  destruct (calculateDistance z (Resource.zip x) g) as [d g1].
  simpl in Hx, Hu. destruct Hx as (Hb1 & Hr). destruct Hu as (Hg1 & _).
  specialize (IH g1 Hg1 Hb1).
  destruct (mapRng (withDistance z) l g1) as [ys g2]. simpl in *.
  constructor; [exact Hr | exact IH].
Qed.

Lemma matchResources_zero_iff (lc : string -> string -> Z)
  (resources : list Resource.t) (userInfo : UserInfo.t) (g : Rng) :
  unitDraws g ->
  Forall (fun m => 0 <= distance m
                   /\ (distance m = 0 <->
                       Resource.zip (resource m) = UserInfo.zip userInfo))
         (fst (matchResources lc resources userInfo g)).
Proof.
  intros Hg. rewrite matchResources_stages. apply List.Forall_forall.
  intros m Hm. unfold slice0, rankAll in Hm.
  apply firstn_In_incl, Array_sort_In in Hm.
  pose proof (mapRng_withDistance_zero_iff (UserInfo.zip userInfo)
                (languageStage (eligibilityStage resources userInfo)
                               (preferredOf userInfo)) g Hg) as HF.
  rewrite List.Forall_forall in HF. exact (HF m Hm).
Qed.

Lemma matchResources_distances (lc : string -> string -> Z)
  (resources : list Resource.t) (userInfo : UserInfo.t) (g : Rng) :
  unitDraws g -> doubleDraws g ->
  Forall (fun m => 0 <= distance m <= 14
                   /\ (distance m = 0 <->
                       Resource.zip (resource m) = UserInfo.zip userInfo))
         (fst (matchResources lc resources userInfo g)).
Proof.
  intros Hg Hb. apply List.Forall_forall. intros m Hm.
  pose proof (matchResources_zero_iff lc resources userInfo g Hg) as HZ.
  rewrite List.Forall_forall in HZ. destruct (HZ m Hm) as [H0 Hiff].
  split; [|exact Hiff]. split; [exact H0|].
  rewrite matchResources_stages in Hm. unfold slice0, rankAll in Hm.
  apply firstn_In_incl, Array_sort_In in Hm.
  pose proof (mapRng_withDistance_range (UserInfo.zip userInfo)
                (languageStage (eligibilityStage resources userInfo)
                               (preferredOf userInfo)) g Hg Hb) as HF.
  rewrite List.Forall_forall in HF. exact (HF m Hm).
Qed.

(** X16. Under the contract of [Math.random()] (every draw a binary64
    value in [0, 1)), every element of a match result has a distance from
    0 to 14, and the distance is 0 exactly when the resource's ZIP is the
    criteria's ZIP. *)
Theorem matchResources_distance_zero_iff_same_zip
  (localeCompare : string -> string -> Z)
  (resources : list Resource.t) (userInfo : UserInfo.t) (g : Rng)
  (Hdraws : unitDraws g) (Hdoubles : doubleDraws g) :
  Forall (fun m => 0 <= distance m <= 14
                   /\ (distance m = 0 <->
                       Resource.zip (resource m) = UserInfo.zip userInfo))
         (fst (matchResources localeCompare resources userInfo g)).
Proof. exact (matchResources_distances _ _ _ _ Hdraws Hdoubles). Qed.

Lemma matchResources_distance_zero_iff_same_zip_witness :
  Forall (fun m => 0 <= distance m <= 14
                   /\ (distance m = 0 <->
                       Resource.zip (resource m) = UserInfo.zip sampleUser))
         (fst (matchResources rootCollation sampleCatalog sampleUser
                 halfDraws)).
Proof.
  apply (matchResources_distance_zero_iff_same_zip rootCollation
           sampleCatalog sampleUser halfDraws).
  - intros n. split; vm_compute; congruence.
  - intros n. reflexivity.
Defined.

Lemma StronglySorted_firstn_skipn {A : Type} (R : A -> A -> Prop) (n : nat)
  (l : list A) (x y : A) :
  StronglySorted R l -> In x (firstn n l) -> In y (skipn n l) -> R x y.
Proof.
  intros H; revert n; induction H as [|a l Hl IH Ha]; intros [|n]; simpl;
    try tauto.
  intros [<-|Hx] Hy.
  - rewrite List.Forall_forall in Ha. apply Ha.
    rewrite <- (firstn_skipn n l). apply in_or_app. right. exact Hy.
  - eapply IH; eassumption.
Qed.

(** X17. When [localeCompare] is a consistent comparator, the result holds
    the nearest candidates: every candidate of the working set that the
    [slice] leaves out is at least as far as every element of the result,
    and the first element of the result is at least as near as any
    candidate. *)
Theorem matchResources_returns_the_nearest
  (localeCompare : string -> string -> Z)
  (Hconsistent : consistentCompare localeCompare)
  (resources : list Resource.t) (userInfo : UserInfo.t) (g : Rng) :
  let ranked :=
    rankAll localeCompare (UserInfo.zip userInfo)
      (languageStage (eligibilityStage resources userInfo)
                     (preferredOf userInfo)) g in
  let out := fst (matchResources localeCompare resources userInfo g) in
  ranked = out ++ skipn 5 ranked /\
  (forall m m', In m out -> In m' (skipn 5 ranked) ->
                distance m <= distance m') /\
  (forall m0 rest m, out = m0 :: rest -> In m ranked ->
                     distance m0 <= distance m).
Proof.
  intros ranked out.
  assert (Hout : out = firstn 5 ranked) by apply matchResources_stages.
  assert (Hsorted : StronglySorted (rankLe localeCompare) ranked).
  { eapply StronglySorted_weaken;
      [|apply (Array_sort_sorted (compareMatches localeCompare)
                 (compareMatches_anti _ Hconsistent)
                 (compareMatches_trans _ Hconsistent))].
    intros a b Hab. apply compareMatches_le, Hab. }
  split; [rewrite Hout; symmetry; apply firstn_skipn|].
  split.
  - intros m m' Hm Hm'. rewrite Hout in Hm.
    exact (proj1 (StronglySorted_firstn_skipn _ 5 ranked m m'
                    Hsorted Hm Hm')).
  - intros m0 rest m E Hm. rewrite Hout in E.
    destruct ranked as [|r0 ranked']; [discriminate|].
    simpl in E. injection E as E0 _. subst m0.
    destruct Hm as [Hm|Hm]; [subst m; apply Z.le_refl|].
    apply StronglySorted_inv in Hsorted. destruct Hsorted as [_ HF].
    rewrite List.Forall_forall in HF. exact (proj1 (HF m Hm)).
Qed.

Lemma matchResources_returns_the_nearest_witness :
  rankAll rootCollation (UserInfo.zip sampleUser)
    (languageStage (eligibilityStage sampleCatalog sampleUser)
                   (preferredOf sampleUser)) halfDraws
  = fst (matchResources rootCollation sampleCatalog sampleUser halfDraws)
    ++ skipn 5 (rankAll rootCollation (UserInfo.zip sampleUser)
                  (languageStage (eligibilityStage sampleCatalog sampleUser)
                                 (preferredOf sampleUser)) halfDraws).
Proof.
  exact (proj1
    (matchResources_returns_the_nearest rootCollation
       rootCollation_consistent sampleCatalog sampleUser halfDraws)).
Defined.

(* ===================================================================== *)
(** * The results page and the action plan                                *)
(* ===================================================================== *)

Lemma same_zip_label_no_y (k : nat) :
  String.get k "Same ZIP code" <> Some "y"%char.
Proof.
  do 14 (destruct k as [|k]; [discriminate|]). discriminate.
Qed.

Lemma formatDistance_zero (d : Z) :
  formatDistance d = "Same ZIP code"%string <-> d = 0.
Proof.
  unfold formatDistance. destruct (Z.eqb_spec d 0) as [E|E]; [tauto|].
  split; [|contradiction]. intros H. exfalso.
  set (x := if negb (d =? 1) then "s"%string else ""%string) in H.
  pose proof (append_correct2 x " away" 4) as H1.
  pose proof (append_correct2 " mile" (x +:+ " away")
                (4 + String.length x)) as H2.
  pose proof (append_correct2 (pretty d) (" mile" +:+ (x +:+ " away"))
                (4 + String.length x + String.length " mile")) as H3.
  rewrite <- H2, <- H1, H in H3.
  change (String.get 4 " away") with (Some "y"%char) in H3.
  symmetry in H3. exact (same_zip_label_no_y _ H3).
Qed.

(** X18. The results page writes 'Same ZIP code' for a distance of 0 and
    for no other distance; so, under the contract of [Math.random()], it
    writes it for an element of a match result exactly when the
    resource's ZIP is the criteria's ZIP. *)
Theorem formatDistance_same_zip_label
  (localeCompare : string -> string -> Z)
  (resources : list Resource.t) (userInfo : UserInfo.t) (g : Rng)
  (Hdraws : unitDraws g) :
  (forall d, formatDistance d = "Same ZIP code"%string <-> d = 0) /\
  Forall (fun m => formatDistance (distance m) = "Same ZIP code"%string
                   <-> Resource.zip (resource m) = UserInfo.zip userInfo)
         (fst (matchResources localeCompare resources userInfo g)).
Proof.
  split; [apply formatDistance_zero|].
  eapply List.Forall_impl;
    [|apply (matchResources_zero_iff localeCompare resources userInfo g
               Hdraws)].
  intros m [_ Hm]. cbv beta in Hm. rewrite formatDistance_zero. exact Hm.
Qed.

Lemma formatDistance_same_zip_label_witness :
  Forall (fun m => formatDistance (distance m) = "Same ZIP code"%string
                   <-> Resource.zip (resource m) = UserInfo.zip sampleUser)
         (fst (matchResources rootCollation sampleCatalog sampleUser
                 halfDraws)).
Proof.
  apply (formatDistance_same_zip_label rootCollation sampleCatalog
           sampleUser halfDraws).
  intros n. split; vm_compute; congruence.
Defined.

Lemma templates_values (res : Resource.t) (k : string) (v : JSValue) :
  templates res !! k = Some v ->
  exists s1 s2 s3, v = JArr [JStr s1; JStr s2; JStr s3].
Proof.
  intros H. unfold templates in H.
  apply elem_of_list_to_map_2, list_elem_of_In in H. cbn [In] in H.
  repeat (destruct H as [H|H];
          [injection H as _ <-; eexists _, _, _; reflexivity|]).
  contradiction.
Qed.

Lemma generateMockActionPlan_steps (res : Resource.t) :
  assoc (Resource.category res) objectPrototype = None ->
  exists s1 s2 s3,
    generateMockActionPlan res
    = list_to_map [ ("steps"%string, JArr [JStr s1; JStr s2; JStr s3]) ].
Proof.
  intros Hc. unfold generateMockActionPlan, get.
  destruct (templates res !! Resource.category res) as [v|] eqn:E.
  - destruct (templates_values _ _ _ E) as (s1 & s2 & s3 & ->).
    exists s1, s2, s3. unfold jsOr. cbn [truthy]. reflexivity.
  - rewrite Hc. unfold jsOr. cbn [truthy]. eexists _, _, _. reflexivity.
Qed.

(** X19. The local action plan has exactly three steps, each a string, for
    every resource whose category is not the name of a property that plain
    objects inherit; so has the plan of every element of a match result
    when the criteria's [primaryNeed] is not such a name. *)
Theorem generateMockActionPlan_three_steps (res : Resource.t)
  (Hcategory : assoc (Resource.category res) objectPrototype = None) :
  (exists s1 s2 s3,
     generateMockActionPlan res
     = list_to_map [ ("steps"%string, JArr [JStr s1; JStr s2; JStr s3]) ])
  /\
  (forall (localeCompare : string -> string -> Z)
          (resources : list Resource.t) (userInfo : UserInfo.t) (g : Rng)
          (m : MatchResult),
     assoc (UserInfo.primaryNeed userInfo) objectPrototype = None ->
     In m (fst (matchResources localeCompare resources userInfo g)) ->
     exists s1 s2 s3,
       generateMockActionPlan (resource m)
       = list_to_map
           [ ("steps"%string, JArr [JStr s1; JStr s2; JStr s3]) ]).
Proof.
  split; [apply generateMockActionPlan_steps, Hcategory|].
  intros lc resources userInfo g m Hneed Hm.
  apply generateMockActionPlan_steps.
  apply matchResources_from_stage2 in Hm.
  unfold eligibilityStage, categoryStage in Hm.
  apply filter_In in Hm. destruct Hm as [Hm _].
  apply filter_In in Hm. destruct Hm as [_ Hc].
  apply String.eqb_eq in Hc. rewrite Hc. exact Hneed.
Qed.

Lemma generateMockActionPlan_three_steps_witness :
  exists s1 s2 s3,
    generateMockActionPlan (foodResource 1 "Berkeley" "94601")
    = list_to_map [ ("steps"%string, JArr [JStr s1; JStr s2; JStr s3]) ].
Proof.
  exact (proj1 (generateMockActionPlan_three_steps
                  (foodResource 1 "Berkeley" "94601") eq_refl)).
Defined.

Lemma filter_all {A : Type} (f : A -> bool) (l : list A) :
  (forall x, f x = true) -> List.filter f l = l.
Proof.
  intros H. induction l as [|x l IH]; simpl; [reflexivity|].
  rewrite H, IH. reflexivity.
Qed.

(** X20. For a user from whom no tag is derived (an income bracket other
    than low and very_low, an age range other than 65+, a household of at
    most one) the eligibility filter removes nothing: every resource of
    the needed category passes, whatever its tags. *)
Theorem eligibility_keeps_all_for_untagged_user
  (resources : list Resource.t) (userInfo : UserInfo.t)
  (Hlow : UserInfo.incomeBracket userInfo <> "low"%string)
  (Hvery : UserInfo.incomeBracket userInfo <> "very_low"%string)
  (Hage : UserInfo.ageRange userInfo <> "65+"%string)
  (Hsize : UserInfo.householdSize userInfo <= 1) :
  deriveUserTags userInfo = [] /\
  (forall res, matchesEligibility res userInfo = true) /\
  eligibilityStage resources userInfo = categoryStage resources userInfo.
Proof.
  assert (Hnone : deriveUserTags userInfo = []).
  { unfold deriveUserTags.
    destruct (String.eqb_spec (UserInfo.incomeBracket userInfo) "low");
      [contradiction|].
    destruct (String.eqb_spec (UserInfo.incomeBracket userInfo) "very_low");
      [contradiction|].
    destruct (String.eqb_spec (UserInfo.ageRange userInfo) "65+");
      [contradiction|].
    destruct (Z.ltb_spec 1 (UserInfo.householdSize userInfo)); [lia|].
    reflexivity. }
  assert (Hall : forall res, matchesEligibility res userInfo = true).
  { intros res. unfold matchesEligibility. rewrite Hnone.
    destruct (Resource.eligibilityTags res) as [tags|]; [|reflexivity].
    destruct (length tags =? 0)%nat; [reflexivity|].
    cbn. rewrite andb_false_r. reflexivity. }
  split; [exact Hnone|]. split; [exact Hall|].
  unfold eligibilityStage. apply filter_all. exact Hall.
Qed.

Lemma eligibility_keeps_all_for_untagged_user_witness :
  eligibilityStage sampleCatalog untaggedUser
  = categoryStage sampleCatalog untaggedUser.
Proof.
  apply (eligibility_keeps_all_for_untagged_user sampleCatalog untaggedUser);
    discriminate.
Defined.

Lemma supportsLanguage_lower (res : Resource.t) (a b : string) :
  toLowerCase a = toLowerCase b ->
  supportsLanguage res a = supportsLanguage res b.
Proof. intros H. unfold supportsLanguage. rewrite H. reflexivity. Qed.

(** X21. The result does not depend on the case of the preferred language,
    and an absent preferred language counts as 'English': two criteria
    that differ only in a preferred language that is the same up to case
    get the same result from the same draws. *)
Theorem matchResources_language_up_to_case
  (localeCompare : string -> string -> Z)
  (resources : list Resource.t) (userInfo : UserInfo.t)
  (p1 p2 : option string) (g : Rng)
  (Hsame : toLowerCase (preferredOf (withLanguage userInfo p1))
           = toLowerCase (preferredOf (withLanguage userInfo p2))) :
  matchResources localeCompare resources (withLanguage userInfo p1) g
  = matchResources localeCompare resources (withLanguage userInfo p2) g.
Proof.
  unfold matchResources.
  fold (preferredOf (withLanguage userInfo p1)).
  fold (preferredOf (withLanguage userInfo p2)).
  cbn [withLanguage UserInfo.zip UserInfo.primaryNeed].
  set (pref1 := preferredOf (withLanguage userInfo p1)) in *.
  set (pref2 := preferredOf (withLanguage userInfo p2)) in *.
  assert (He : forall l,
    List.filter (fun res => matchesEligibility res
                              (withLanguage userInfo p1)) l
    = List.filter (fun res => matchesEligibility res
                                (withLanguage userInfo p2)) l).
  { intros l. apply filter_ext. intros res. reflexivity. }
  assert (Hs : forall l,
    List.filter (fun res => supportsLanguage res pref1) l
    = List.filter (fun res => supportsLanguage res pref2) l).
  { intros l. apply filter_ext. intros res.
    apply supportsLanguage_lower, Hsame. }
  rewrite He, Hs. reflexivity.
Qed.

Lemma matchResources_language_up_to_case_witness :
  matchResources rootCollation sampleCatalog
    (withLanguage sampleUser (Some "ENGLISH"%string)) halfDraws
  = matchResources rootCollation sampleCatalog
      (withLanguage sampleUser None) halfDraws.
Proof.
  apply (matchResources_language_up_to_case rootCollation sampleCatalog
           sampleUser (Some "ENGLISH"%string) None halfDraws).
  reflexivity.
Defined.
